(** * uob-on-time: the online timetable scraper

    A shallow embedding of [uob_on_time/timetable.py] (classes [Event] and
    [Timetable]) and of [example.py] ([main]).

    The program drives a browser through Selenium.  The browser and the
    remote site are the environment: a [Site] answers every driver command
    as a function of the commands issued before it, and shows a page.  Every
    call on the driver or on an element it has found is such a command, the
    searches for the cells of a row and the reads of their texts too: each
    is logged and each may raise.  The
    [Timetable] methods are written in a small state-and-exception monad
    over the [Timetable] object, so that a Python exception leaves the
    mutations made before it in place. *)

From Stdlib Require Import String Ascii List ZArith Lia Bool DecimalString.
Import ListNotations.
Open Scope list_scope.
Open Scope string_scope.

(** ** Module constants *)

Definition default_url : string :=
  "https://onlinetimetables.bham.ac.uk/Timetable/current_academic_year_2/default.aspx".

Definition login_url : string :=
  "https://onlinetimetables.bham.ac.uk/Timetable/current_academic_year_2/login.aspx".

Definition timeout : Z := 10.

Definition timetable_url : string :=
  "https://onlinetimetables.bham.ac.uk/Timetable/current_academic_year_2/showtimetable.aspx".

(** ** Python built-ins used by the program *)

(** [str(i)] on an [int]. *)
Definition str (i : Z) : string := NilZero.string_of_int (Z.to_int i).

(** [range(a, b)]. *)
Definition range (a b : Z) : list Z :=
  map (fun k => (a + Z.of_nat k)%Z) (seq 0 (Z.to_nat (b - a))).

(** [itertools.chain(xs, ys)]. *)
Definition chain {A : Type} (xs ys : list A) : list A := (xs ++ ys)%list.

(** The exceptions the program can meet.  Unpacking a sequence of the wrong
    length into eight names raises [ValueError]: "not enough values to unpack
    (expected 8, got n)" or "too many values to unpack (expected 8)". *)
Inductive exn : Type :=
| NoSuchElementException
| TimeoutException
| WebDriverException (msg : string)
| ValueError_not_enough (expected got : nat)
| ValueError_too_many (expected : nat)
| EOFError.

(** ** class Event *)

Record Event : Type := mkEvent {
  date : string;
  activity : string;
  type : string;
  start : string;
  end_ : string;
  room : string;
  staff : string;
  department : string
}.

(** A keyword argument of [Event.__init__]: [None] when the caller omits it. *)
Definition arg (given : option string) (default : string) : string :=
  match given with
  | Some v => v
  | None => default
  end.

(** [Event.__init__] with its default values. *)
Definition Event_init
  (date activity type start end_ room staff department : option string) : Event :=
  {| date := arg date "";
     activity := arg activity "Untitled activity";
     type := arg type "Other";
     start := arg start "9:00";
     end_ := arg end_ "19:00";
     room := arg room "TBC";
     staff := arg staff "TBC";
     department := arg department "N/A" |}.

(** [Event.__str__]. *)
Definition Event_str (self : Event) : string :=
  activity self ++ " of type " ++ type self ++ " on " ++ date self
  ++ " from " ++ start self ++ " to " ++ end_ self ++ " in " ++ room self
  ++ " with " ++ staff self ++ " of " ++ department self ++ ".".

(** The eight fields in the order of the table columns. *)
Definition fields (e : Event) : list string :=
  [date e; activity e; type e; start e; end_ e; room e; staff e; department e].

(** ** The browser and the remote site *)

(** Whitespace as [WebElement.text] strips it. *)
Definition is_space (c : ascii) : bool :=
  match nat_of_ascii c with
  | 32 | 9 | 10 | 11 | 12 | 13 => true
  | _ => false
  end.

Fixpoint lstrip (s : string) : string :=
  match s with
  | String c s' => if is_space c then lstrip s' else s
  | EmptyString => EmptyString
  end.

Fixpoint rstrip (s : string) : string :=
  match s with
  | String c s' =>
      match rstrip s' with
      | EmptyString => if is_space c then EmptyString else String c EmptyString
      | r => String c r
      end
  | EmptyString => EmptyString
  end.

(** A table cell ([td]) of the page, with the characters it holds. *)
Record Td : Type := mkTd { inner_text : string }.

(** What the driver gives as the text of a cell when it answers: the content
    of the cell with its leading and trailing whitespace removed.  Reading
    it is a command to the driver, [WebElement_text] below. *)
Definition text (td : Td) : string := rstrip (lstrip (inner_text td)).

(** A table row ([tr]) with its class attribute and its [td] cells. *)
Record Tr : Type := mkTr { tr_class : list string; tds : list Td }.

(** An element that holds rows, with its class attribute. *)
Record Table : Type := mkTable { table_class : list string; trs : list Tr }.

(** The part of a page the program looks at. *)
Definition Page : Type := list Table.

Definition has_class (c : string) (classes : list string) : bool :=
  existsb (String.eqb c) classes.

(** The rows the selector [.spreadsheet tr:not(.columnTitles)] matches: the
    rows inside an element of class [spreadsheet] that are not of class
    [columnTitles] (the header row), in document order. *)
Definition non_header_rows (p : Page) : list Tr :=
  flat_map
    (fun tb =>
       if has_class "spreadsheet" (table_class tb)
       then filter (fun r => negb (has_class "columnTitles" (tr_class r))) (trs tb)
       else [])
    p.

(** [selenium.webdriver.common.keys]: what [send_keys] types. *)
Inductive Keys : Type :=
| Chars (s : string)
| RETURN.

(** [selenium.webdriver.common.by]: how an element is looked for. *)
Inductive By : Type :=
| By_ID
| By_NAME
| By_TAG_NAME
| By_CSS_SELECTOR.

(** [expected_conditions]. *)
Inductive Condition : Type :=
| text_to_be_present_in_element (locator : By * string) (text_ : string)
| url_to_be (url : string).

(** The commands the program sends to the driver.  An element found by name
    is designated by that name, a row or a cell of the results by what the
    page held for it when it was found. *)
Inductive Cmd : Type :=
| Chrome (options : list string)
| Get (url : string)
| ExecuteScript (script : string) (args : list string)
| WaitUntil (seconds : Z) (c : Condition)
| FindElementByName (name : string)
| Clear (element : string)
| SendKeys (element : string) (keys : list Keys)
| SelectElement (element : string)
| SelectByVisibleText (element : string) (text_ : string)
| SelectByValue (element : string) (value : string)
| Click (element : string)
| FindElementsByCssSelector (selector : string)
| FindElementsByTagName (element : Tr) (tag : string)
| GetText (element : Td)
| Quit.

Inductive Response : Type :=
| Done
| Raised (e : exn).

(** The environment.  [respond past c] is the answer to command [c] when
    [past] are the commands issued before it, most recent first; [page past]
    is the page shown after the commands [past]. *)
Record Site : Type := mkSite {
  respond : list Cmd -> Cmd -> Response;
  page : list Cmd -> Page
}.

(** The driver: the site it talks to and the log of the commands issued,
    most recent first. *)
Record WebDriver : Type := mkWebDriver {
  site : Site;
  log : list Cmd
}.

(** The commands issued, oldest first. *)
Definition trace (d : WebDriver) : list Cmd := rev (log d).

(** ** class Timetable *)

Record Timetable : Type := mkTimetable {
  driver : WebDriver;
  events : list Event
}.

(** Methods run on the object and either return a value or raise. *)
Definition Result (A : Type) : Type := (A + exn)%type.

Definition M (A : Type) : Type := Timetable -> Timetable * Result A.

Definition ret {A : Type} (a : A) : M A := fun t => (t, inl a).

Definition raise {A : Type} (e : exn) : M A := fun t => (t, inr e).

Definition bind {A B : Type} (m : M A) (k : A -> M B) : M B :=
  fun t =>
    match m t with
    | (t', inl a) => k a t'
    | (t', inr e) => (t', inr e)
    end.

(** The outcome of a [try] block, for the [except:] clause to inspect. *)
Definition attempt {A : Type} (m : M A) : M (Result A) :=
  fun t => match m t with (t', r) => (t', inl r) end.

Declare Scope py_scope.
Delimit Scope py_scope with py.
Notation "x <- m ;; k" := (bind m (fun x => k))
  (at level 61, m at next level, right associativity) : py_scope.
Notation "m ;; k" := (bind m (fun _ => k))
  (at level 61, right associativity) : py_scope.
Open Scope py_scope.

(** [for x in xs: body]. *)
Fixpoint for_each {A : Type} (xs : list A) (body : A -> M unit) : M unit :=
  match xs with
  | [] => ret tt
  | x :: xs' => body x ;; for_each xs' body
  end.

(** One command sent to the driver: the site answers it and it is logged. *)
Definition answer (d : WebDriver) (c : Cmd) : Response :=
  respond (site d) (log d) c.

Definition issue (d : WebDriver) (c : Cmd) : WebDriver :=
  {| site := site d; log := c :: log d |}.

Definition driver_call (c : Cmd) : M unit :=
  fun t =>
    ({| driver := issue (driver t) c; events := events t |},
     match answer (driver t) c with
     | Done => inl tt
     | Raised e => inr e
     end).

Definition find_element_by_name (name : string) : M string :=
  driver_call (FindElementByName name) ;; ret name.

(** [Select(element)]. *)
Definition Select (element : string) : M string :=
  driver_call (SelectElement element) ;; ret element.

(** [driver.find_elements_by_css_selector('.spreadsheet tr:not(.columnTitles)')]:
    the matching rows of the page shown when the command is answered. *)
Definition find_elements_by_css_selector_rows : M (list Tr) :=
  driver_call (FindElementsByCssSelector ".spreadsheet tr:not(.columnTitles)") ;;
  fun t => (t, inl (non_header_rows (page (site (driver t)) (log (driver t))))).

(** [event_tr.find_elements_by_tag_name('td')]: a command to the driver,
    which gives the cells of the row when it answers. *)
Definition find_elements_by_tag_name_td (event_tr : Tr) : M (list Td) :=
  driver_call (FindElementsByTagName event_tr "td") ;; ret (tds event_tr).

(** [td.text]: a command to the driver, which gives the text of the cell
    when it answers. *)
Definition WebElement_text (td : Td) : M string :=
  driver_call (GetText td) ;; ret (text td).

(** [self.events.append(e)]. *)
Definition events_append (e : Event) : M unit :=
  fun t => ({| driver := driver t; events := (events t ++ [e])%list |}, inl tt).

(** [Timetable.__init__]: a Chrome driver in incognito mode and no events. *)
Definition Timetable_init (s : Site) : Timetable * Result unit :=
  driver_call (Chrome ["--incognito"])
    {| driver := {| site := s; log := [] |}; events := [] |}.

(** [Timetable.__enter__]. *)
Definition Timetable_enter (self : Timetable) : Timetable := self.

(** [Timetable.__exit__]: quits the driver; returns [None], so a pending
    exception is not suppressed. *)
Definition Timetable_exit : M unit := driver_call Quit.

(** [Timetable.__str__]. *)
Definition Timetable_str (self : Timetable) : string :=
  fold_left (fun s event => s ++ String "010"%char "-- " ++ Event_str event)
    (events self)
    (str (Z.of_nat (length (events self))) ++ " events scraped from online timetable:").

(** [Timetable.login]. *)
Definition login (username password : string) : M bool :=
  driver_call (Get login_url) ;;
  username_input <- find_element_by_name "tUserName" ;;
  driver_call (Clear username_input) ;;
  driver_call (SendKeys username_input [Chars username]) ;;
  password_input <- find_element_by_name "tPassword" ;;
  driver_call (Clear password_input) ;;
  driver_call (SendKeys password_input [Chars password; RETURN]) ;;
  r <- attempt (driver_call (WaitUntil timeout (url_to_be default_url))) ;;
  match r with
  | inl _ => ret true
  | inr _ => ret false
  end.

(** [Timetable.load]. *)
Definition load : M bool :=
  r <- attempt
         (driver_call (ExecuteScript "__doPostBack(arguments[0], arguments[1])"
                         ["LinkBtn_mystudentset"; ""]) ;;
          driver_call (WaitUntil timeout
                         (text_to_be_present_in_element (By_ID, "tFilterTitle") "My Timetable"))) ;;
  match r with
  | inr _ => ret false
  | inl _ =>
      week_select <- bind (find_element_by_name "lbWeeks") Select ;;
      driver_call (SelectByVisibleText week_select "*All Term Time") ;;
      for_each (chain (range 1 6) (range 44 53))
        (fun i => driver_call (SelectByValue week_select (" " ++ str i))) ;;
      day_select <- bind (find_element_by_name "lbDays") Select ;;
      driver_call (SelectByVisibleText day_select "All Week") ;;
      period_select <- bind (find_element_by_name "dlPeriod") Select ;;
      driver_call (SelectByVisibleText period_select "All Day (08:00 - 22:00)") ;;
      type_select <- bind (find_element_by_name "dlType") Select ;;
      driver_call (SelectByVisibleText type_select "List Timetable (with calendar dates)") ;;
      button <- find_element_by_name "bGetTimetable" ;;
      driver_call (Click button) ;;
      r <- attempt (driver_call (WaitUntil timeout (url_to_be timetable_url))) ;;
      match r with
      | inl _ => ret true
      | inr _ => ret false
      end
  end.

(** [Timetable.scrape].  For each row the cells are searched for and
    unpacked into eight names, which raises [ValueError] when they are not
    eight; then the texts of the eight cells are read from left to right,
    the arguments of [Event]; then the event is appended. *)
Definition scrape : M unit :=
  rows <- find_elements_by_css_selector_rows ;;
  for_each rows
    (fun event_tr =>
       cells <- find_elements_by_tag_name_td event_tr ;;
       match cells with
       | [date_td; activity_td; type_td; start_td; end_td; room_td; staff_td;
          department_td] =>
           date_ <- WebElement_text date_td ;;
           activity_ <- WebElement_text activity_td ;;
           type_ <- WebElement_text type_td ;;
           start_ <- WebElement_text start_td ;;
           end__ <- WebElement_text end_td ;;
           room_ <- WebElement_text room_td ;;
           staff_ <- WebElement_text staff_td ;;
           department_ <- WebElement_text department_td ;;
           events_append
             (Event_init (Some date_) (Some activity_) (Some type_) (Some start_)
                (Some end__) (Some room_) (Some staff_) (Some department_))
       | _ =>
           if Nat.ltb (length cells) 8
           then raise (ValueError_not_enough 8 (length cells))
           else raise (ValueError_too_many 8)
       end).

(** ** example.py *)

(** The terminal: the lines still to be read and the lines written. *)
Record Console : Type := mkConsole {
  stdin : list string;
  stdout : list string
}.

(** [print(line)]. *)
Definition print (c : Console) (line : string) : Console :=
  {| stdin := stdin c; stdout := (stdout c ++ [line])%list |}.

(** A block of [main] that uses the timetable [t] and the terminal. *)
Definition Block (A : Type) : Type :=
  Console -> Timetable -> Console * (Timetable * Result A).

(** The [while True] loop of [main]: [input] and [getpass] each read one
    line and raise [EOFError] when none is left. *)
Fixpoint login_loop (lines : list string) (out : list string) (t : Timetable)
  : Console * (Timetable * Result unit) :=
  match lines with
  | [] =>
      (mkConsole [] (out ++ ["Enter UoB username (e.g. abc123): "])%list,
       (t, inr EOFError))
  | [username] =>
      (mkConsole [] (out ++ ["Enter UoB username (e.g. abc123): ";
                             "Enter UoB password (hidden): "])%list,
       (t, inr EOFError))
  | username :: password :: rest =>
      let out' := (out ++ ["Enter UoB username (e.g. abc123): ";
                           "Enter UoB password (hidden): "])%list in
      match login username password t with
      | (t', inl true) =>
          (mkConsole rest (out' ++ [("Logged in as " ++ username ++ ".")%string])%list,
           (t', inl tt))
      | (t', inl false) =>
          login_loop rest (out' ++ ["Incorrect username or password. Try again."])%list t'
      | (t', inr e) => (mkConsole rest out', (t', inr e))
      end
  end.

(** The body of the [with] statement of [main]. *)
Definition main_body : Block unit :=
  fun c t =>
    match login_loop (stdin c) (stdout c) t with
    | (c1, (t1, inr e)) => (c1, (t1, inr e))
    | (c1, (t1, inl _)) =>
        let c2 := print c1 "Loading timetable..." in
        match load t1 with
        | (t2, inr e) => (c2, (t2, inr e))
        | (t2, inl true) =>
            let c3 := print c2 "Scraping timetable..." in
            match scrape t2 with
            | (t3, inr e) => (c3, (t3, inr e))
            | (t3, inl _) =>
                (print (print c3 (Timetable_str t3)) "Logging out...", (t3, inl tt))
            end
        | (t2, inl false) =>
            (print (print c2 "Timeout. Failed to load timetable.") "Logging out...",
             (t2, inl tt))
        end
    end.

(** [with Timetable() as t: body].  When the constructor raises the scope is
    not entered.  Otherwise [__exit__] runs however the body ends; it returns
    [None], so an exception of the body goes on after it. *)
Definition with_Timetable {A : Type} (s : Site) (body : Block A) (c : Console)
  : Console * (Timetable * Result A) :=
  match Timetable_init s with
  | (t0, inr e) => (c, (t0, inr e))
  | (t0, inl _) =>
      match body c (Timetable_enter t0) with
      | (c1, (t1, r)) =>
          match Timetable_exit t1 with
          | (t2, inr e) => (c1, (t2, inr e))
          | (t2, inl _) => (c1, (t2, r))
          end
      end
  end.

(** [main]. *)
Definition main (s : Site) (c : Console) : Console * (Timetable * Result unit) :=
  match with_Timetable s main_body c with
  | (c1, (t, inl _)) => (print c1 "Finished.", (t, inl tt))
  | (c1, (t, inr e)) => (c1, (t, inr e))
  end.

(** ** What the claims speak of *)

Definition is_Quit (c : Cmd) : bool :=
  match c with
  | Quit => true
  | _ => false
  end.

(** How many times the browser has been released. *)
Definition quits (t : Timetable) : nat :=
  length (filter is_Quit (log (driver t))).

(** The commands a run has added to the trace of [t], oldest first. *)
Definition issued (t t' : Timetable) : list Cmd :=
  skipn (length (log (driver t))) (trace (driver t')).

(** The operations of the program on a timetable. *)
Inductive Op : Type :=
| op_login (username password : string)
| op_load
| op_scrape
| op_print.

Definition run_op (o : Op) (t : Timetable) : Timetable :=
  match o with
  | op_login username password => fst (login username password t)
  | op_load => fst (load t)
  | op_scrape => fst (scrape t)
  | op_print => let _ := Timetable_str t in t
  end.

Definition run_ops (os : list Op) (t : Timetable) : Timetable :=
  fold_left (fun t o => run_op o t) os t.

(** ** Frame conditions *)

(** [m] takes every timetable to one related to it by [R], whether it
    returns or raises. *)
Definition keeps (R : Timetable -> Timetable -> Prop) {A : Type} (m : M A) : Prop :=
  forall t, R t (fst (m t)).

(** The events are the same. *)
Definition same_events (t t' : Timetable) : Prop := events t' = events t.

(** The events are kept, in place, and more may follow them. *)
Definition more_events (t t' : Timetable) : Prop :=
  exists new, events t' = (events t ++ new)%list.

(** The browser has been released as many times as before. *)
Definition same_quits (t t' : Timetable) : Prop := quits t' = quits t.

(** ** What [scrape] is shown and does *)

Definition find_rows_cmd : Cmd :=
  FindElementsByCssSelector ".spreadsheet tr:not(.columnTitles)".

(** The non-header rows of the results page that [scrape] is shown. *)
Definition results_rows (t : Timetable) : list Tr :=
  non_header_rows (page (site (driver t)) (find_rows_cmd :: log (driver t))).

(** The fault of unpacking [n] cells into eight names. *)
Definition unpack_fault (n : nat) : exn :=
  if Nat.ltb n 8 then ValueError_not_enough 8 n else ValueError_too_many 8.

(** The event the cells of a row yield when the driver answers for each of
    them, or the fault of unpacking them into eight names. *)
Definition unpack_event (cells : list Td) : Result Event :=
  match cells with
  | [date_td; activity_td; type_td; start_td; end_td; room_td; staff_td; department_td] =>
      inl (Event_init (Some (text date_td)) (Some (text activity_td))
             (Some (text type_td)) (Some (text start_td)) (Some (text end_td))
             (Some (text room_td)) (Some (text staff_td)) (Some (text department_td)))
  | _ => inr (unpack_fault (length cells))
  end.

(** The body of the loop of [scrape]. *)
Definition scrape_row (event_tr : Tr) : M unit :=
  cells <- find_elements_by_tag_name_td event_tr ;;
  match cells with
  | [date_td; activity_td; type_td; start_td; end_td; room_td; staff_td;
     department_td] =>
      date_ <- WebElement_text date_td ;;
      activity_ <- WebElement_text activity_td ;;
      type_ <- WebElement_text type_td ;;
      start_ <- WebElement_text start_td ;;
      end__ <- WebElement_text end_td ;;
      room_ <- WebElement_text room_td ;;
      staff_ <- WebElement_text staff_td ;;
      department_ <- WebElement_text department_td ;;
      events_append
        (Event_init (Some date_) (Some activity_) (Some type_) (Some start_)
           (Some end__) (Some room_) (Some staff_) (Some department_))
  | _ =>
      if Nat.ltb (length cells) 8
      then raise (ValueError_not_enough 8 (length cells))
      else raise (ValueError_too_many 8)
  end.

(** What [scrape] sends for a row of eight cells, and for the rows of a page
    that all have eight cells. *)
Definition row_cmds (row : Tr) : list Cmd :=
  FindElementsByTagName row "td" :: map GetText (tds row).

Definition scrape_cmds (rows : list Tr) : list Cmd :=
  find_rows_cmd :: flat_map row_cmds rows.

(** The timetable once the rows have been asked for. *)
Definition asked (t : Timetable) : Timetable :=
  {| driver := issue (driver t) find_rows_cmd; events := events t |}.

(** ** Whitespace *)

Fixpoint all_space (s : string) : bool :=
  match s with
  | String c s' => is_space c && all_space s'
  | EmptyString => true
  end.

Definition first_char (s : string) : option ascii :=
  match s with
  | String c _ => Some c
  | EmptyString => None
  end.

Fixpoint last_char (s : string) : option ascii :=
  match s with
  | String c EmptyString => Some c
  | String _ s' => last_char s'
  | EmptyString => None
  end.

(** [s] is [raw] without the whitespace around it. *)
Definition trimmed_of (raw s : string) : Prop :=
  (exists l r, raw = l ++ s ++ r /\ all_space l = true /\ all_space r = true)
  /\ (forall c, first_char s = Some c -> is_space c = false)
  /\ (forall c, last_char s = Some c -> is_space c = false).

(** What a row and the event built from it have to do with each other: the
    row has eight cells and the fields of the event, in their order, are the
    texts of the cells, each the content of its cell without the whitespace
    around it. *)
Definition event_of_row (row : Tr) (ev : Event) : Prop :=
  length (tds row) = 8
  /\ fields ev = map text (tds row)
  /\ Forall2 trimmed_of (map inner_text (tds row)) (fields ev).

(** ** Runs of driver commands *)

(** The commands of a list sent one after the other until one raises. *)
Fixpoint run_cmds (cs : list Cmd) (d : WebDriver) : WebDriver * option exn :=
  match cs with
  | [] => (d, None)
  | c :: cs' =>
      match answer d c with
      | Done => run_cmds cs' (issue d c)
      | Raised e => (issue d c, Some e)
      end
  end.

(** The answers of a site to the commands [cs] sent after the log [l]. *)
Fixpoint answers (s : Site) (l : list Cmd) (cs : list Cmd) : list Response :=
  match cs with
  | [] => []
  | c :: cs' => respond s l c :: answers s (c :: l) cs'
  end.

(** The last command issued and the answer it got. *)
Definition last_answer (d : WebDriver) : option (Cmd * Response) :=
  match log d with
  | c :: l => Some (c, respond (site d) l c)
  | [] => None
  end.

(** What [login] sends before it waits, and the wait. *)
Definition login_form_cmds (username password : string) : list Cmd :=
  [ Get login_url;
    FindElementByName "tUserName";
    Clear "tUserName";
    SendKeys "tUserName" [Chars username];
    FindElementByName "tPassword";
    Clear "tPassword";
    SendKeys "tPassword" [Chars password; RETURN] ].

Definition login_wait : Cmd := WaitUntil timeout (url_to_be default_url).

Definition login_cmds (username password : string) : list Cmd :=
  (login_form_cmds username password ++ [login_wait])%list.

(** What [load] sends: to open the filter form, to fill and submit it, and
    the wait for the results. *)
Definition load_open_cmds : list Cmd :=
  [ ExecuteScript "__doPostBack(arguments[0], arguments[1])" ["LinkBtn_mystudentset"; ""];
    WaitUntil timeout (text_to_be_present_in_element (By_ID, "tFilterTitle") "My Timetable") ].

Definition week_cmds : list Cmd :=
  [ SelectByVisibleText "lbWeeks" "*All Term Time";
    SelectByValue "lbWeeks" " 1";
    SelectByValue "lbWeeks" " 2";
    SelectByValue "lbWeeks" " 3";
    SelectByValue "lbWeeks" " 4";
    SelectByValue "lbWeeks" " 5";
    SelectByValue "lbWeeks" " 44";
    SelectByValue "lbWeeks" " 45";
    SelectByValue "lbWeeks" " 46";
    SelectByValue "lbWeeks" " 47";
    SelectByValue "lbWeeks" " 48";
    SelectByValue "lbWeeks" " 49";
    SelectByValue "lbWeeks" " 50";
    SelectByValue "lbWeeks" " 51";
    SelectByValue "lbWeeks" " 52" ].

Definition load_form_cmds : list Cmd :=
  ([ FindElementByName "lbWeeks"; SelectElement "lbWeeks" ] ++ week_cmds ++
   [ FindElementByName "lbDays"; SelectElement "lbDays";
     SelectByVisibleText "lbDays" "All Week";
     FindElementByName "dlPeriod"; SelectElement "dlPeriod";
     SelectByVisibleText "dlPeriod" "All Day (08:00 - 22:00)";
     FindElementByName "dlType"; SelectElement "dlType";
     SelectByVisibleText "dlType" "List Timetable (with calendar dates)";
     FindElementByName "bGetTimetable";
     Click "bGetTimetable" ])%list.

Definition load_wait : Cmd := WaitUntil timeout (url_to_be timetable_url).

Definition load_cmds : list Cmd :=
  (load_open_cmds ++ load_form_cmds ++ [load_wait])%list.

(** A timetable with the driver [d] and the events of [t]. *)
Definition with_driver (t : Timetable) (d : WebDriver) : Timetable :=
  {| driver := d; events := events t |}.

(** What follows a run of commands: [ok] when all were answered, [err] when
    one raised. *)
Definition after_run {A : Type} (r : WebDriver * option exn)
  (ok : WebDriver -> A) (err : WebDriver -> exn -> A) : A :=
  match r with
  | (d, None) => ok d
  | (d, Some e) => err d e
  end.

(** The site takes the credentials: it serves the login form, answers what
    [login] does with it, and reaches the default URL in time. *)
Definition accepts (t : Timetable) (username password : string) : Prop :=
  answers (site (driver t)) (log (driver t)) (login_cmds username password)
  = [Done; Done; Done; Done; Done; Done; Done; Done].

(** The site turns the credentials down: it serves the login form and answers
    what [login] does with it, but the default URL is not reached in time and
    the wait raises [e]. *)
Definition rejects (t : Timetable) (username password : string) (e : exn) : Prop :=
  answers (site (driver t)) (log (driver t)) (login_cmds username password)
  = [Done; Done; Done; Done; Done; Done; Done; Raised e].

(** The commands that select a week. *)
Definition selects_week (c : Cmd) : bool :=
  match c with
  | SelectByVisibleText element _ => String.eqb element "lbWeeks"
  | SelectByValue element _ => String.eqb element "lbWeeks"
  | _ => false
  end.

(** ** Sites to run the program on *)

(** A site that answers every command and always shows the page [p]. *)
Definition steady_site (p : Page) : Site :=
  {| respond := fun _ _ => Done; page := fun _ => p |}.

(** A site that answers every command except [bad], which raises [e]. *)
Definition failing_site (bad : Cmd -> bool) (e : exn) (p : Page) : Site :=
  {| respond := fun _ c => if bad c then Raised e else Done; page := fun _ => p |}.

(** The timetable [Timetable()] builds on the site [s]. *)
Definition fresh (s : Site) : Timetable := fst (Timetable_init s).

Definition row_of (classes : list string) (cells : list string) : Tr :=
  {| tr_class := classes; tds := map mkTd cells |}.

Definition header_row : Tr :=
  row_of ["columnTitles"]
    ["Date"; "Activity"; "Type"; "Start"; "End"; "Room"; "Staff"; "Department"].

Definition algorithms_row : Tr :=
  row_of []
    ["3 Oct 2024"; " Algorithms Lecture "; "Lecture"; "9:00"; "10:00"; "G3";
     "Dr. Smith"; "Computer Science"].

Definition seven_cells_row : Tr :=
  row_of [] ["4 Oct 2024"; "Logic Lab"; "Lab"; "11:00"; "12:00"; "LG04"; "Dr. Jones"].



Definition results_page (rows : list Tr) : Page :=
  [ {| table_class := ["spreadsheet"]; trs := header_row :: rows |} ].

Definition algorithms_event : Event :=
  mkEvent "3 Oct 2024" "Algorithms Lecture" "Lecture" "9:00" "10:00" "G3"
    "Dr. Smith" "Computer Science".

Definition is_wait_for (url : string) (c : Cmd) : bool :=
  match c with
  | WaitUntil _ (url_to_be u) => String.eqb u url
  | _ => false
  end.

(** A site that knows one user: the wait for the default URL succeeds when
    the keys typed last into the two fields are those of the user. *)
Definition one_user_site (username password : string) (p : Page) : Site :=
  {| respond := fun l c =>
       if is_wait_for default_url c then
         match l with
         | SendKeys _ [Chars pw; RETURN] :: _ :: _ :: SendKeys _ [Chars u] :: _ =>
             if String.eqb u username && String.eqb pw password
             then Done else Raised TimeoutException
         | _ => Raised TimeoutException
         end
       else Done;
     page := fun _ => p |}.

(** A site on which the results URL is never reached. *)
Definition slow_site (p : Page) : Site :=
  failing_site (is_wait_for timetable_url) TimeoutException p.

(** ** Printing, and the order of the stages *)

(** The line [Timetable.__str__] adds for an event. *)
Definition event_line (event : Event) : string :=
  String "010"%char "-- " ++ Event_str event.

(** Strings put one after the other. *)
Fixpoint join (parts : list string) : string :=
  match parts with
  | [] => ""
  | part :: parts' => part ++ join parts'
  end.

(** The command [c] has been issued and the site has answered it with [r]. *)
Definition answered (d : WebDriver) (c : Cmd) (r : Response) : Prop :=
  exists l1 l2, log d = (l1 ++ c :: l2)%list /\ respond (site d) l2 c = r.

(** The same site, and a log that has only grown. *)
Definition later (t t' : Timetable) : Prop :=
  site (driver t') = site (driver t)
  /\ exists l, log (driver t') = (l ++ log (driver t))%list.

(** No command of the kind [p] has been issued that was not issued before. *)
Definition unsent (p : Cmd -> bool) (t t' : Timetable) : Prop :=
  existsb p (log (driver t')) = true -> existsb p (log (driver t)) = true.

(** The script that opens the filter form, with which [load] starts. *)
Definition is_script (c : Cmd) : bool :=
  match c with
  | ExecuteScript _ _ => true
  | _ => false
  end.

(** The search for the rows, with which [scrape] starts. *)
Definition is_find_rows (c : Cmd) : bool :=
  match c with
  | FindElementsByCssSelector _ => true
  | _ => false
  end.

Definition is_find (name : string) (c : Cmd) : bool :=
  match c with
  | FindElementByName n => String.eqb n name
  | _ => false
  end.

(** The read of the text of a cell. *)
Definition is_get_text (c : Cmd) : bool :=
  match c with
  | GetText _ => true
  | _ => false
  end.

Definition is_wait_for_text (c : Cmd) : bool :=
  match c with
  | WaitUntil _ (text_to_be_present_in_element _ _) => true
  | _ => false
  end.

(** * Proofs *)

(** ** Frame conditions of the monad *)

Section Frame.

Variable R : Timetable -> Timetable -> Prop.
Hypothesis R_refl : forall t, R t t.
Hypothesis R_trans : forall a b c, R a b -> R b c -> R a c.

Lemma keeps_ret {A : Type} (a : A) : keeps R (ret a).
Proof. intros t. apply R_refl. Qed.

Lemma keeps_raise {A : Type} (e : exn) : keeps R (@raise A e).
Proof. intros t. apply R_refl. Qed.

Lemma keeps_bind {A B : Type} (m : M A) (k : A -> M B) :
  keeps R m -> (forall a, keeps R (k a)) -> keeps R (bind m k).
Proof.
  intros Hm Hk t. unfold bind. specialize (Hm t).
  destruct (m t) as [t' [a | e]]; simpl in *.
  - eapply R_trans; [exact Hm | apply Hk].
  - exact Hm.
Qed.

Lemma keeps_attempt {A : Type} (m : M A) : keeps R m -> keeps R (attempt m).
Proof.
  intros Hm t. unfold attempt. specialize (Hm t).
  destruct (m t) as [t' r]. exact Hm.
Qed.

Lemma keeps_for_each {A : Type} (xs : list A) (body : A -> M unit) :
  (forall x, keeps R (body x)) -> keeps R (for_each xs body).
Proof.
  intros Hb. induction xs as [| x xs IH]; simpl.
  - apply keeps_ret.
  - apply keeps_bind; [apply Hb | intros _; exact IH].
Qed.

Lemma keeps_match_result {A B : Type} (r : Result A) (f : A -> M B) (g : exn -> M B) :
  (forall a, keeps R (f a)) -> (forall e, keeps R (g e)) ->
  keeps R (match r with inl a => f a | inr e => g e end).
Proof. intros Hf Hg. destruct r; auto. Qed.

End Frame.

(** Solves [keeps R m] for a program [m] built from the combinators, given
    the proofs that [R] is a preorder and a tactic for the primitives. *)
Ltac keeps_step Rrefl Rtrans prim :=
  first
    [ apply (keeps_ret _ Rrefl)
    | apply (keeps_raise _ Rrefl)
    | apply (keeps_bind _ Rtrans)
    | apply (keeps_attempt _)
    | apply (keeps_for_each _ Rrefl Rtrans)
    | apply keeps_match_result
    | prim
    | intro ].

Ltac keeps_tac Rrefl Rtrans prim := repeat keeps_step Rrefl Rtrans prim.

Lemma same_events_refl t : same_events t t.
Proof. reflexivity. Qed.

Lemma same_events_trans a b c : same_events a b -> same_events b c -> same_events a c.
Proof. unfold same_events. congruence. Qed.

Lemma more_events_refl t : more_events t t.
Proof. exists []. now rewrite app_nil_r. Qed.

Lemma more_events_trans a b c : more_events a b -> more_events b c -> more_events a c.
Proof.
  intros [n1 H1] [n2 H2]. exists (n1 ++ n2)%list.
  rewrite H2, H1. now rewrite app_assoc.
Qed.

Lemma same_quits_refl t : same_quits t t.
Proof. reflexivity. Qed.

Lemma same_quits_trans a b c : same_quits a b -> same_quits b c -> same_quits a c.
Proof. unfold same_quits. congruence. Qed.

Lemma same_more_events t t' : same_events t t' -> more_events t t'.
Proof. intros H. exists []. rewrite app_nil_r. exact H. Qed.

Lemma driver_call_same_events c : keeps same_events (driver_call c).
Proof. intros t. reflexivity. Qed.

Lemma driver_call_same_quits c : is_Quit c = false -> keeps same_quits (driver_call c).
Proof.
  intros Hc t. unfold same_quits, quits. simpl. now rewrite Hc.
Qed.

Lemma events_append_more_events e : keeps more_events (events_append e).
Proof. intros t. exists [e]. reflexivity. Qed.

Lemma events_append_same_quits e : keeps same_quits (events_append e).
Proof. intros t. reflexivity. Qed.

Ltac same_events_tac :=
  keeps_tac same_events_refl same_events_trans ltac:(apply driver_call_same_events).

Ltac same_quits_tac :=
  keeps_tac same_quits_refl same_quits_trans
    ltac:(first [ apply driver_call_same_quits; reflexivity
                | apply events_append_same_quits ]).

Lemma login_same_events username password : keeps same_events (login username password).
Proof. unfold login, find_element_by_name. same_events_tac. Qed.

Lemma load_same_events : keeps same_events load.
Proof. unfold load, find_element_by_name, Select. same_events_tac. Qed.

Lemma login_same_quits username password : keeps same_quits (login username password).
Proof. unfold login, find_element_by_name. same_quits_tac. Qed.

Lemma load_same_quits : keeps same_quits load.
Proof. unfold load, find_element_by_name, Select. same_quits_tac. Qed.

(** ** Stepping through a method *)

Lemma after_run_nil {A : Type} d (ok : WebDriver -> A) err :
  after_run (run_cmds [] d) ok err = ok d.
Proof. reflexivity. Qed.

Lemma after_run_cons {A : Type} c cs d (ok : WebDriver -> A) err :
  after_run (run_cmds (c :: cs) d) ok err =
  match answer d c with
  | Done => after_run (run_cmds cs (issue d c)) ok err
  | Raised e => err (issue d c) e
  end.
Proof. simpl. destruct (answer d c); reflexivity. Qed.

Lemma bind_call {A : Type} c (k : unit -> M A) t d :
  bind (driver_call c) k (with_driver t d) =
  match answer d c with
  | Done => k tt (with_driver t (issue d c))
  | Raised e => (with_driver t (issue d c), inr e)
  end.
Proof.
  unfold bind, driver_call, with_driver. simpl.
  destruct (answer d c); reflexivity.
Qed.

Lemma bind_ret {A B : Type} (a : A) (k : A -> M B) t : bind (ret a) k t = k a t.
Proof. reflexivity. Qed.

Lemma bind_bind {A B C : Type} (m : M A) (f : A -> M B) (g : B -> M C) t :
  bind (bind m f) g t = bind m (fun a => bind (f a) g) t.
Proof.
  unfold bind. destruct (m t) as [t1 [a | e]]; reflexivity.
Qed.

Lemma bind_attempt_call {A : Type} c (k : Result unit -> M A) t d :
  bind (attempt (driver_call c)) k (with_driver t d) =
  match answer d c with
  | Done => k (inl tt) (with_driver t (issue d c))
  | Raised e => k (inr e) (with_driver t (issue d c))
  end.
Proof.
  unfold bind, attempt, driver_call, with_driver. simpl.
  destruct (answer d c); reflexivity.
Qed.

Lemma bind_attempt_bind_call {A B : Type} c (k1 : unit -> M B) (k : Result B -> M A) t d :
  bind (attempt (bind (driver_call c) k1)) k (with_driver t d) =
  match answer d c with
  | Done => bind (attempt (k1 tt)) k (with_driver t (issue d c))
  | Raised e => k (inr e) (with_driver t (issue d c))
  end.
Proof.
  unfold bind, attempt, driver_call, with_driver. simpl.
  destruct (answer d c); reflexivity.
Qed.

Lemma with_driver_driver t : with_driver t (driver t) = t.
Proof. destruct t; reflexivity. Qed.

(** The program on the left is brought to the form [bind (driver_call c) k]. *)
Ltac next_call :=
  repeat first [ rewrite bind_ret | rewrite bind_bind | rewrite after_run_nil
               | progress cbn [for_each app] | progress cbv beta iota ].

(** One step of a run, on a goal [program (with_driver t d) = after_run ...]:
    the next command is sent and its answer examined; when it is [Done] the
    run goes on from the driver that has issued the command. *)
Ltac call_step d :=
  next_call;
  first [ rewrite bind_attempt_bind_call
        | rewrite bind_attempt_call
        | rewrite bind_call ];
  rewrite after_run_cons;
  lazymatch goal with
  | |- match answer d ?c with _ => _ end = _ =>
      destruct (answer d c);
      [ generalize (issue d c); clear d; intros d
      | cbv beta iota; reflexivity ]
  end.

(** The last step, the wait in a [try] block. *)
Ltac wait_step d :=
  next_call; rewrite bind_attempt_call;
  lazymatch goal with
  | |- match answer d ?c with _ => _ end = _ =>
      destruct (answer d c); reflexivity
  end.

Lemma login_unfold username password t :
  login username password t =
  after_run (run_cmds (login_form_cmds username password) (driver t))
    (fun d =>
       (with_driver t (issue d login_wait),
        inl (match answer d login_wait with Done => true | Raised _ => false end)))
    (fun d e => (with_driver t d, inr e)).
Proof.
  rewrite <- (with_driver_driver t) at 1.
  generalize (driver t). intros d.
  unfold login, find_element_by_name, login_form_cmds, login_wait.
  do 7 call_step d. wait_step d.
Qed.

(** The weeks [load] goes through, and the values it selects for them. *)
Lemma load_weeks :
  chain (range 1 6) (range 44 53) = [1; 2; 3; 4; 5; 44; 45; 46; 47; 48; 49; 50; 51; 52]%Z.
Proof. reflexivity. Qed.

Lemma load_week_values :
  map (fun i => " " ++ str i) (chain (range 1 6) (range 44 53)) =
  [" 1"; " 2"; " 3"; " 4"; " 5"; " 44"; " 45"; " 46"; " 47"; " 48"; " 49"; " 50";
   " 51"; " 52"].
Proof. reflexivity. Qed.

Lemma for_each_weeks element :
  for_each (chain (range 1 6) (range 44 53))
    (fun i => driver_call (SelectByValue element (" " ++ str i))) =
  for_each [" 1"; " 2"; " 3"; " 4"; " 5"; " 44"; " 45"; " 46"; " 47"; " 48"; " 49";
            " 50"; " 51"; " 52"]
    (fun v => driver_call (SelectByValue element v)).
Proof. reflexivity. Qed.

Lemma load_unfold t :
  load t =
  after_run (run_cmds load_open_cmds (driver t))
    (fun d1 =>
       after_run (run_cmds load_form_cmds d1)
         (fun d2 =>
            (with_driver t (issue d2 load_wait),
             inl (match answer d2 load_wait with Done => true | Raised _ => false end)))
         (fun d2 e => (with_driver t d2, inr e)))
    (fun d1 _ => (with_driver t d1, inl false)).
Proof.
  rewrite <- (with_driver_driver t) at 1.
  generalize (driver t). intros d.
  unfold load, find_element_by_name, Select, load_open_cmds, load_form_cmds,
    week_cmds, load_wait.
  do 5 call_step d.
  next_call. rewrite for_each_weeks.
  do 25 call_step d. wait_step d.
Qed.

(** ** What a run of commands leaves in the log *)

Lemma issued_app t t' l :
  log (driver t') = (l ++ log (driver t))%list -> issued t t' = rev l.
Proof.
  intros H. unfold issued, trace. rewrite H, rev_app_distr.
  rewrite skipn_app, length_rev, Nat.sub_diag, skipn_all2 by (rewrite length_rev; lia).
  reflexivity.
Qed.

(** A run stops after some of the commands, all of them when none raises;
    when one raises it is the last command issued. *)
Lemma run_cmds_stop cs : forall d,
  exists n,
    n <= length cs
    /\ site (fst (run_cmds cs d)) = site d
    /\ log (fst (run_cmds cs d)) = (rev (firstn n cs) ++ log d)%list
    /\ match snd (run_cmds cs d) with
       | None => n = length cs
       | Some e =>
           exists c, In c cs /\ 0 < n
                     /\ last_answer (fst (run_cmds cs d)) = Some (c, Raised e)
       end.
Proof.
  induction cs as [| c cs IH]; intros d; simpl.
  - exists 0. simpl. auto.
  - destruct (answer d c) as [| e] eqn:E.
    + destruct (IH (issue d c)) as (n & Hn & Hs & Hl & Hr).
      exists (S n). simpl. split; [lia |]. split; [exact Hs |].
      split; [rewrite Hl; simpl; now rewrite <- app_assoc |].
      destruct (snd (run_cmds cs (issue d c))) as [e |]; [| lia].
      destruct Hr as (c' & Hin & Hpos & Hlast).
      exists c'. repeat split; auto; lia.
    + exists 1. simpl. split; [lia |]. split; [reflexivity |].
      split; [reflexivity |].
      exists c. repeat split; auto. unfold last_answer. simpl.
      unfold answer in E. now rewrite E.
Qed.

Lemma firstn_app_left {A : Type} n (l1 l2 : list A) :
  n <= length l1 -> firstn n (l1 ++ l2) = firstn n l1.
Proof.
  intros H. rewrite firstn_app.
  replace (n - length l1) with 0 by lia. simpl. apply app_nil_r.
Qed.

(** ** scrape *)

Lemma run_cmds_app cs1 cs2 : forall d,
  run_cmds (cs1 ++ cs2) d =
  match run_cmds cs1 d with
  | (d1, None) => run_cmds cs2 d1
  | (d1, Some e) => (d1, Some e)
  end.
Proof.
  induction cs1 as [| c cs1 IH]; intros d; simpl; [reflexivity |].
  destruct (answer d c); [apply IH | reflexivity].
Qed.

(** A run raises nothing exactly when the site answers every command. *)
Lemma run_cmds_answered cs : forall d,
  snd (run_cmds cs d) = None
  <-> Forall (fun r => r = Done) (answers (site d) (log d) cs).
Proof.
  induction cs as [| c cs IH]; intros d; simpl.
  - split; [constructor | reflexivity].
  - unfold answer. destruct (respond (site d) (log d) c) as [| e] eqn:E.
    + rewrite IH. simpl. split; [now constructor | now inversion 1].
    + simpl. split; [discriminate | inversion 1; discriminate].
Qed.

Lemma unpack_event_inl cells e :
  unpack_event cells = inl e -> fields e = map text cells.
Proof.
  unfold unpack_event.
  destruct cells as [| c1 [| c2 [| c3 [| c4 [| c5 [| c6 [| c7 [| c8 [| c9 cs]]]]]]]]];
    simpl; try discriminate.
  intros H. injection H as <-. reflexivity.
Qed.

Lemma unpack_event_eight cells :
  length cells = 8 -> exists e, unpack_event cells = inl e.
Proof.
  destruct cells as [| c1 [| c2 [| c3 [| c4 [| c5 [| c6 [| c7 [| c8 [| c9 cs]]]]]]]]];
    simpl; try discriminate.
  intros _. eexists. reflexivity.
Qed.

Lemma unpack_event_inr cells e :
  unpack_event cells = inr e ->
  length cells <> 8 /\ e = unpack_fault (length cells).
Proof.
  unfold unpack_event.
  destruct cells as [| c1 [| c2 [| c3 [| c4 [| c5 [| c6 [| c7 [| c8 [| c9 cs]]]]]]]]];
    intros H; try discriminate H; injection H as <-;
    (split; [simpl; lia | reflexivity]).
Qed.

Lemma scrape_unfold t :
  scrape t =
  match answer (driver t) find_rows_cmd with
  | Done => for_each (results_rows t) scrape_row (asked t)
  | Raised e => (asked t, inr e)
  end.
Proof.
  unfold scrape, find_elements_by_css_selector_rows, bind, driver_call.
  fold find_rows_cmd. destruct (answer (driver t) find_rows_cmd); reflexivity.
Qed.

(** The body of the loop: the cells are searched for; when they are eight
    their texts are read one after the other and the event is appended;
    when they are not, the unpacking raises. *)
Lemma scrape_row_unfold row t d :
  scrape_row row (with_driver t d) =
  after_run (run_cmds [FindElementsByTagName row "td"] d)
    (fun d1 =>
       match unpack_event (tds row) with
       | inl ev =>
           after_run (run_cmds (map GetText (tds row)) d1)
             (fun d2 => ({| driver := d2; events := (events t ++ [ev])%list |}, inl tt))
             (fun d2 e => (with_driver t d2, inr e))
       | inr e => (with_driver t d1, inr e)
       end)
    (fun d1 e => (with_driver t d1, inr e)).
Proof.
  unfold scrape_row, find_elements_by_tag_name_td, WebElement_text.
  call_step d. next_call.
  destruct (tds row) as [| c1 [| c2 [| c3 [| c4 [| c5 [| c6 [| c7 [| c8 [| c9 cs]]]]]]]]];
    try reflexivity.
  cbn [unpack_event map].
  do 8 call_step d.
  next_call. reflexivity.
Qed.

(** How the body of the loop ends for a row: with the event of the row
    appended, every command for the row answered; or with a fault and the
    events as they were, the fault being that of a command the driver has
    not answered or that of unpacking cells that are not eight. *)
Lemma scrape_row_cases row t :
  (exists ev,
      unpack_event (tds row) = inl ev
      /\ snd (scrape_row row t) = inl tt
      /\ events (fst (scrape_row row t)) = (events t ++ [ev])%list
      /\ driver (fst (scrape_row row t)) = fst (run_cmds (row_cmds row) (driver t))
      /\ snd (run_cmds (row_cmds row) (driver t)) = None)
  \/ (exists e,
        snd (scrape_row row t) = inr e
        /\ events (fst (scrape_row row t)) = events t
        /\ ((exists c, last_answer (driver (fst (scrape_row row t))) = Some (c, Raised e))
            \/ (length (tds row) <> 8
                /\ e = unpack_fault (length (tds row))
                /\ hd_error (log (driver (fst (scrape_row row t))))
                   = Some (FindElementsByTagName row "td")))
        /\ (length (tds row) = 8 ->
            snd (run_cmds (row_cmds row) (driver t)) = Some e)).
Proof.
  pose proof (scrape_row_unfold row t (driver t)) as E.
  rewrite with_driver_driver in E. rewrite E. clear E.
  unfold after_run, row_cmds. cbn [run_cmds].
  destruct (answer (driver t) (FindElementsByTagName row "td")) as [| e] eqn:Ea.
  - destruct (unpack_event (tds row)) as [ev | e] eqn:U.
    + destruct (run_cmds_stop (map GetText (tds row))
                  (issue (driver t) (FindElementsByTagName row "td")))
        as (n & _ & _ & _ & Hr).
      destruct (run_cmds (map GetText (tds row))
                  (issue (driver t) (FindElementsByTagName row "td")))
        as [d2 [e |]]; cbn [fst snd] in *.
      * right. exists e. split; [reflexivity |]. split; [reflexivity |].
        destruct Hr as (c & _ & _ & Hlast). split; [left; exists c; exact Hlast | auto].
      * left. exists ev. auto.
    + right. exists e. apply unpack_event_inr in U. destruct U as [Hlen ->].
      cbn [fst snd]. split; [reflexivity |]. split; [reflexivity |].
      split; [right; auto | intros H; contradiction].
  - right. exists e. cbn [fst snd]. split; [reflexivity |]. split; [reflexivity |].
    split; [| reflexivity].
    left. exists (FindElementsByTagName row "td").
    unfold last_answer. cbn [driver with_driver issue log site].
    unfold answer in Ea. now rewrite Ea.
Qed.

(** However the loop of [scrape] ends, it has gone through the rows in their
    order up to some row and added the event of each; it has gone through
    them all when it returns, and when it raises the fault is that of the
    row it stopped at. *)
Lemma scrape_loop_ends rows : forall t,
  exists scraped rest evs,
    rows = (scraped ++ rest)%list
    /\ Forall2 (fun row ev => unpack_event (tds row) = inl ev) scraped evs
    /\ events (fst (for_each rows scrape_row t)) = (events t ++ evs)%list
    /\ match snd (for_each rows scrape_row t) with
       | inl _ => rest = []
       | inr e =>
           exists bad after,
             rest = bad :: after
             /\ ((exists c, last_answer (driver (fst (for_each rows scrape_row t)))
                            = Some (c, Raised e))
                 \/ (length (tds bad) <> 8
                     /\ e = unpack_fault (length (tds bad))
                     /\ hd_error (log (driver (fst (for_each rows scrape_row t))))
                        = Some (FindElementsByTagName bad "td")))
       end.
Proof.
  induction rows as [| row rows IH]; intros t.
  - exists [], [], []. simpl. rewrite app_nil_r. repeat split; constructor.
  - cbn [for_each]. unfold bind.
    destruct (scrape_row_cases row t)
      as [(ev & Hu & Hr & Hev & _) | (e & Hr & Hev & Hf & _)];
      destruct (scrape_row row t) as [t1 r1]; cbn [fst snd] in *; subst r1.
    + destruct (IH t1) as (scraped & rest & evs & Hrows & Hevs & Hev' & Hend).
      exists (row :: scraped), rest, (ev :: evs).
      split; [now rewrite Hrows |]. split; [now constructor |].
      split; [rewrite Hev', Hev; now rewrite <- app_assoc | exact Hend].
    + exists [], (row :: rows), []. cbn [fst snd]. rewrite app_nil_r.
      split; [reflexivity |]. split; [constructor |]. split; [exact Hev |].
      exists row, rows. auto.
Qed.

Lemma scrape_loop_inv rows t t' :
  for_each rows scrape_row t = (t', inl tt) ->
  exists evs,
    Forall2 (fun row ev => unpack_event (tds row) = inl ev) rows evs
    /\ events t' = (events t ++ evs)%list.
Proof.
  intros H.
  destruct (scrape_loop_ends rows t) as (scraped & rest & evs & Hrows & Hevs & Hev & Hend).
  rewrite H in Hev, Hend. cbn [fst snd] in *. subst rest.
  rewrite app_nil_r in Hrows. subst scraped. exists evs. auto.
Qed.

Lemma unpacked_eight rows evs :
  Forall2 (fun row ev => unpack_event (tds row) = inl ev) rows evs ->
  Forall (fun r => length (tds r) = 8) rows.
Proof.
  induction 1 as [| row ev rows evs H _ IH]; constructor; auto.
  apply unpack_event_inl in H. rewrite <- (length_map text), <- H. reflexivity.
Qed.

(** What a [scrape] that returns has done: every row unpacked, one event
    for each, added after the events already held. *)
Lemma scrape_ok_inv t t' :
  scrape t = (t', inl tt) ->
  exists evs,
    Forall2 (fun row ev => unpack_event (tds row) = inl ev) (results_rows t) evs /\
    events t' = (events t ++ evs)%list.
Proof.
  rewrite scrape_unfold. intros H.
  destruct (answer (driver t) find_rows_cmd); [| discriminate].
  exact (scrape_loop_inv _ _ _ H).
Qed.

(** On rows that all have eight cells the loop returns exactly when the
    driver answers every command for them, and has then issued them all. *)
Lemma scrape_loop_run rows :
  Forall (fun r => length (tds r) = 8) rows ->
  forall t,
    snd (for_each rows scrape_row t)
    = match snd (run_cmds (flat_map row_cmds rows) (driver t)) with
      | None => inl tt
      | Some e => inr e
      end
    /\ (snd (run_cmds (flat_map row_cmds rows) (driver t)) = None ->
        driver (fst (for_each rows scrape_row t))
        = fst (run_cmds (flat_map row_cmds rows) (driver t))).
Proof.
  induction 1 as [| row rows Hrow _ IH]; intros t.
  - simpl. auto.
  - cbn [for_each flat_map]. unfold bind. rewrite run_cmds_app.
    destruct (scrape_row_cases row t)
      as [(ev & _ & Hr & _ & Hd & Hn) | (e & Hr & _ & _ & Hs)];
      destruct (scrape_row row t) as [t1 r1]; cbn [fst snd] in *; subst r1.
    + destruct (run_cmds (row_cmds row) (driver t)) as [d1 o]. cbn [fst snd] in *.
      subst o d1. apply IH.
    + specialize (Hs Hrow).
      destruct (run_cmds (row_cmds row) (driver t)) as [d1 o]. cbn [fst snd] in *.
      subst o. cbn [fst snd]. split; [reflexivity | discriminate].
Qed.

(** [scrape] keeps what its commands and the appending keep. *)
Lemma keeps_scrape (R : Timetable -> Timetable -> Prop) :
  (forall t, R t t) -> (forall a b c, R a b -> R b c -> R a c) ->
  (forall c, is_Quit c = false -> keeps R (driver_call c)) ->
  (forall e, keeps R (events_append e)) ->
  keeps R scrape.
Proof.
  intros Rrefl Rtrans Hcall Happend.
  unfold scrape, find_elements_by_css_selector_rows.
  apply (keeps_bind _ Rtrans).
  - apply (keeps_bind _ Rtrans);
      [apply Hcall; reflexivity | intros _ t; apply Rrefl].
  - intros rows. apply (keeps_for_each _ Rrefl Rtrans). intros r.
    unfold find_elements_by_tag_name_td, WebElement_text.
    apply (keeps_bind _ Rtrans);
      [keeps_tac Rrefl Rtrans ltac:(apply Hcall; reflexivity) |].
    intros cells.
    destruct cells as [| c1 [| c2 [| c3 [| c4 [| c5 [| c6 [| c7 [| c8 [| c9 cs]]]]]]]]];
      try (destruct (Nat.ltb _ _); apply (keeps_raise _ Rrefl)).
    keeps_tac Rrefl Rtrans
      ltac:(first [apply Hcall; reflexivity | apply Happend]).
Qed.

Lemma scrape_more_events : keeps more_events scrape.
Proof.
  apply (keeps_scrape _ more_events_refl more_events_trans).
  - intros c _ t. apply same_more_events, driver_call_same_events.
  - apply events_append_more_events.
Qed.

Lemma scrape_same_quits : keeps same_quits scrape.
Proof.
  apply (keeps_scrape _ same_quits_refl same_quits_trans).
  - apply driver_call_same_quits.
  - apply events_append_same_quits.
Qed.

(** ** The text of a cell *)

Lemma lstrip_split s :
  exists ws, s = ws ++ lstrip s /\ all_space ws = true.
Proof.
  induction s as [| c s [ws [IH1 IH2]]]; simpl.
  - exists "". auto.
  - destruct (is_space c) eqn:E.
    + exists (String c ws). simpl. rewrite E, IH2. split; [now f_equal | reflexivity].
    + exists "". auto.
Qed.

Lemma lstrip_first s c : first_char (lstrip s) = Some c -> is_space c = false.
Proof.
  induction s as [| a s IH]; simpl; [discriminate |].
  destruct (is_space a) eqn:E; [exact IH |].
  simpl. intros H. injection H as <-. exact E.
Qed.

Lemma rstrip_split s :
  exists ws, s = rstrip s ++ ws /\ all_space ws = true.
Proof.
  induction s as [| c s [ws [IH1 IH2]]]; simpl.
  - exists "". auto.
  - destruct (rstrip s) as [| a r] eqn:E.
    + simpl in IH1. subst ws. destruct (is_space c) eqn:Ec.
      * exists (String c s). simpl. now rewrite Ec, IH2.
      * exists s. auto.
    + exists ws. split; [| exact IH2]. simpl. f_equal. exact IH1.
Qed.

Lemma rstrip_last s c : last_char (rstrip s) = Some c -> is_space c = false.
Proof.
  induction s as [| a s IH]; simpl; [discriminate |].
  destruct (rstrip s) as [| b r] eqn:E.
  - destruct (is_space a) eqn:Ea; simpl; [discriminate |].
    intros H. injection H as <-. exact Ea.
  - intros H. apply IH. exact H.
Qed.

Lemma rstrip_first s c : first_char (rstrip s) = Some c -> first_char s = Some c.
Proof.
  destruct s as [| a s]; simpl; [discriminate |].
  destruct (rstrip s); [destruct (is_space a) |]; simpl; auto; discriminate.
Qed.

(** [text] is the content of the cell without the whitespace around it. *)
Lemma text_trimmed td : trimmed_of (inner_text td) (text td).
Proof.
  unfold trimmed_of, text. repeat split.
  - destruct (lstrip_split (inner_text td)) as [l [Hl1 Hl2]].
    destruct (rstrip_split (lstrip (inner_text td))) as [r [Hr1 Hr2]].
    exists l, r. repeat split; auto. now rewrite <- Hr1.
  - intros c H. apply rstrip_first in H. eapply lstrip_first; eauto.
  - intros c. apply rstrip_last.
Qed.

Lemma texts_trimmed cells : Forall2 trimmed_of (map inner_text cells) (map text cells).
Proof.
  induction cells as [| td cells IH]; simpl; constructor; auto using text_trimmed.
Qed.

Lemma unpack_event_of_row row ev :
  unpack_event (tds row) = inl ev -> event_of_row row ev.
Proof.
  intros H. apply unpack_event_inl in H. unfold event_of_row.
  rewrite H. split; [| split; [reflexivity | apply texts_trimmed]].
  rewrite <- (length_map text), <- H. reflexivity.
Qed.

Lemma unpacked_events_of_rows rows evs :
  Forall2 (fun row ev => unpack_event (tds row) = inl ev) rows evs ->
  Forall2 event_of_row rows evs.
Proof.
  intros H. eapply Forall2_impl; [| exact H].
  intros row ev. apply unpack_event_of_row.
Qed.

(** However the loop of [scrape] ends, it has gone through the rows in their
    order up to some row and added the event of each; it has gone through
    them all when it returns. *)
Lemma scrape_loop_any rows : forall t,
  exists scraped rest evs,
    rows = (scraped ++ rest)%list
    /\ Forall2 (fun row ev => unpack_event (tds row) = inl ev) scraped evs
    /\ events (fst (for_each rows scrape_row t)) = (events t ++ evs)%list
    /\ (snd (for_each rows scrape_row t) = inl tt -> rest = []).
Proof.
  intros t.
  destruct (scrape_loop_ends rows t) as (scraped & rest & evs & Hrows & Hevs & Hev & Hend).
  exists scraped, rest, evs. repeat split; auto.
  intros H. now rewrite H in Hend.
Qed.

(** ** The claims on [scrape] and [Event] *)

(** C1. However [scrape] ends, the events it has produced follow the events
    already held, one for each non-header row it has gone through, in the
    order of the rows, and the eight fields of each (date, activity, type,
    start, end, room, staff, department, in that order) are the texts of the
    eight cells of its row from left to right, where the text of a cell is
    its content with the whitespace around it removed.  When [scrape]
    returns it has gone through every non-header row. *)
Theorem scrape_fields_verbatim t :
  exists scraped rest produced,
    results_rows t = (scraped ++ rest)%list
    /\ events (fst (scrape t)) = (events t ++ produced)%list
    /\ Forall2 event_of_row scraped produced
    /\ (snd (scrape t) = inl tt -> rest = []).
Proof.
  rewrite scrape_unfold.
  destruct (answer (driver t) find_rows_cmd) as [| e].
  - destruct (scrape_loop_any (results_rows t) (asked t))
      as (scraped & rest & evs & Hrows & Hevs & Hev & Hret).
    exists scraped, rest, evs.
    repeat split; auto using unpacked_events_of_rows.
  - exists [], (results_rows t), []. simpl. rewrite app_nil_r.
    repeat split; try constructor. discriminate.
Qed.

(** The one-row scenario: the row yields exactly one record with the eight
    values in order. *)
Lemma scrape_fields_verbatim_witness :
  let t := fresh (steady_site (results_page [algorithms_row])) in
  snd (scrape t) = inl tt
  /\ events (fst (scrape t)) = [algorithms_event]
  /\ fields algorithms_event
     = ["3 Oct 2024"; "Algorithms Lecture"; "Lecture"; "9:00"; "10:00"; "G3";
        "Dr. Smith"; "Computer Science"]
  /\ exists scraped rest produced,
       results_rows t = (scraped ++ rest)%list
       /\ events (fst (scrape t)) = (events t ++ produced)%list
       /\ Forall2 event_of_row scraped produced
       /\ (snd (scrape t) = inl tt -> rest = []).
Proof.
  intros t. split; [reflexivity |]. split; [reflexivity |]. split; [reflexivity |].
  exact (scrape_fields_verbatim t).
Defined.

(** C2. When [scrape] returns, it has produced as many events as the results
    page has non-header rows; and on a results page without such a row it
    returns, once the rows have been found, and leaves the events as they
    were (none, on a new timetable). *)
Theorem scrape_count t :
  (snd (scrape t) = inl tt ->
   length (events (fst (scrape t))) = length (events t) + length (results_rows t))
  /\ (answer (driver t) find_rows_cmd = Done -> results_rows t = [] ->
      snd (scrape t) = inl tt /\ events (fst (scrape t)) = events t).
Proof.
  split.
  - intros H.
    assert (Hs : scrape t = (fst (scrape t), inl tt))
      by (rewrite <- H; apply surjective_pairing).
    destruct (scrape_ok_inv _ _ Hs) as (evs & Hevs & ->). simpl.
    rewrite length_app. f_equal. symmetry. eapply Forall2_length; eauto.
  - intros Hfind Hrows. rewrite scrape_unfold, Hfind, Hrows. simpl. auto.
Qed.

Lemma scrape_count_witness :
  let two := fresh (steady_site (results_page [algorithms_row; algorithms_row])) in
  let none := fresh (steady_site (results_page [])) in
  length (results_rows two) = 2
  /\ length (events (fst (scrape two))) = 2
  /\ results_rows none = []
  /\ snd (scrape none) = inl tt
  /\ events (fst (scrape none)) = [].
Proof.
  intros two none.
  split; [reflexivity |].
  split; [exact (proj1 (scrape_count two) eq_refl) |].
  split; [reflexivity |].
  exact (proj2 (scrape_count none) eq_refl eq_refl).
Defined.




(** C9. [Event.__init__] gives every field the argument passed for it, and,
    for each argument left out, the default of that field. *)
Theorem Event_init_defaults
  (date_ activity_ type_ start_ end__ room_ staff_ department_ : option string) :
  let e := Event_init date_ activity_ type_ start_ end__ room_ staff_ department_ in
  date e = match date_ with Some v => v | None => "" end
  /\ activity e = match activity_ with Some v => v | None => "Untitled activity" end
  /\ type e = match type_ with Some v => v | None => "Other" end
  /\ start e = match start_ with Some v => v | None => "9:00" end
  /\ end_ e = match end__ with Some v => v | None => "19:00" end
  /\ room e = match room_ with Some v => v | None => "TBC" end
  /\ staff e = match staff_ with Some v => v | None => "TBC" end
  /\ department e = match department_ with Some v => v | None => "N/A" end.
Proof. repeat split. Qed.

(** ** Sequences of operations *)

Lemma run_op_more_events o t : more_events t (run_op o t).
Proof.
  destruct o as [username password | | |]; simpl.
  - apply same_more_events, login_same_events.
  - apply same_more_events, load_same_events.
  - apply scrape_more_events.
  - apply more_events_refl.
Qed.

Lemma run_ops_more_events os : forall t, more_events t (run_ops os t).
Proof.
  induction os as [| o os IH]; intros t; simpl.
  - apply more_events_refl.
  - eapply more_events_trans; [apply run_op_more_events | apply IH].
Qed.

(** C10. [login] and [load] leave the events as they are, whether they
    return or raise; [scrape] only adds events after those already held; and
    two calls of [scrape] that return leave the events held before, then the
    events of the first call, then those of the second, one for each row
    either call was shown. *)
Theorem events_only_appended t username password :
  events (fst (login username password t)) = events t
  /\ events (fst (load t)) = events t
  /\ (exists new, events (fst (scrape t)) = (events t ++ new)%list)
  /\ (forall t1 t2, scrape t = (t1, inl tt) -> scrape t1 = (t2, inl tt) ->
      exists new1 new2,
        events t1 = (events t ++ new1)%list
        /\ events t2 = (events t ++ new1 ++ new2)%list
        /\ length new1 = length (results_rows t)
        /\ length new2 = length (results_rows t1)).
Proof.
  split; [apply login_same_events |].
  split; [apply load_same_events |].
  split; [apply scrape_more_events |].
  intros t1 t2 H1 H2.
  destruct (scrape_ok_inv _ _ H1) as (new1 & Hn1 & E1).
  destruct (scrape_ok_inv _ _ H2) as (new2 & Hn2 & E2).
  exists new1, new2.
  repeat split.
  - exact E1.
  - rewrite E2, E1. now rewrite <- app_assoc.
  - symmetry. eapply Forall2_length; eauto.
  - symmetry. eapply Forall2_length; eauto.
Qed.

(** Two scrapes of a one-row page hold the record twice. *)
Lemma events_only_appended_witness :
  let t := fresh (steady_site (results_page [algorithms_row])) in
  events (fst (scrape (fst (scrape t)))) = [algorithms_event; algorithms_event]
  /\ exists new1 new2,
       events (fst (scrape t)) = (events t ++ new1)%list
       /\ events (fst (scrape (fst (scrape t)))) = (events t ++ new1 ++ new2)%list
       /\ length new1 = length (results_rows t)
       /\ length new2 = length (results_rows (fst (scrape t))).
Proof.
  intros t. split; [reflexivity |].
  exact (proj2 (proj2 (proj2 (events_only_appended t "" "")))
           (fst (scrape t)) (fst (scrape (fst (scrape t)))) eq_refl eq_refl).
Defined.

(** C8. An event is built once for each row [scrape] goes through: a
    [scrape] that returns has added as many events as it was shown rows.
    Whatever operations of the program then run on the timetable ([login],
    [load], [scrape], printing), in whatever order and whether they return
    or raise, the events it held are held afterwards at the same positions
    with the same eight fields, and any event built since comes after
    them. *)
Theorem events_immutable os t :
  (forall t', scrape t = (t', inl tt) ->
              length (events t') = length (events t) + length (results_rows t))
  /\ (exists new, events (run_ops os t) = (events t ++ new)%list)
  /\ (forall i e, nth_error (events t) i = Some e ->
                  nth_error (events (run_ops os t)) i = Some e).
Proof.
  split.
  { intros t' H. destruct (scrape_ok_inv _ _ H) as (evs & Hevs & ->). simpl.
    rewrite length_app. f_equal. symmetry. eapply Forall2_length; eauto. }
  destruct (run_ops_more_events os t) as [new Hnew].
  split; [exists new; exact Hnew |].
  intros i e H. rewrite Hnew. rewrite nth_error_app1; [exact H |].
  apply nth_error_Some. congruence.
Qed.

Lemma events_immutable_witness :
  let t := fst (scrape (fresh (steady_site (results_page [algorithms_row])))) in
  let os := [op_print; op_login "abc123" "secret"; op_load; op_scrape; op_print] in
  nth_error (events t) 0 = Some algorithms_event
  /\ nth_error (events (run_ops os t)) 0 = Some algorithms_event.
Proof.
  intros t os.
  assert (H : nth_error (events t) 0 = Some algorithms_event) by reflexivity.
  split; [exact H |].
  exact (proj2 (proj2 (events_immutable os t)) 0 algorithms_event H).
Defined.

(** ** The scope of the session *)

Lemma login_loop_same_quits lines : forall out t,
  quits (fst (snd (login_loop lines out t))) = quits t.
Proof.
  induction lines as [lines IH] using (well_founded_induction
    (Wf_nat.well_founded_ltof _ (@length string))).
  intros out t.
  destruct lines as [| username [| password rest]]; try reflexivity.
  simpl. pose proof (login_same_quits username password t) as Hq.
  unfold same_quits in Hq.
  destruct (login username password t) as [t' [[|] | e]]; simpl in *; auto.
  rewrite IH; [exact Hq |]. unfold ltof. simpl. lia.
Qed.

Lemma main_body_same_quits c t : quits (fst (snd (main_body c t))) = quits t.
Proof.
  unfold main_body.
  pose proof (login_loop_same_quits (stdin c) (stdout c) t) as H1.
  destruct (login_loop (stdin c) (stdout c) t) as [c1 [t1 [[] | e]]]; simpl in *; auto.
  pose proof (load_same_quits t1) as H2. unfold same_quits in H2.
  destruct (load t1) as [t2 [[|] | e]]; simpl in *; try congruence.
  pose proof (scrape_same_quits t2) as H3. unfold same_quits in H3.
  destruct (scrape t2) as [t3 [[] | e]]; simpl in *; congruence.
Qed.

Lemma with_Timetable_quits {A : Type} (s : Site) (body : Block A) c :
  snd (Timetable_init s) = inl tt ->
  (forall c t, quits (fst (snd (body c t))) = quits t) ->
  quits (fst (snd (with_Timetable s body c))) = 1
  /\ hd_error (log (driver (fst (snd (with_Timetable s body c))))) = Some Quit.
Proof.
  intros Hinit Hbody. unfold with_Timetable.
  destruct (Timetable_init s) as [t0 r0] eqn:E0. simpl in Hinit. subst r0.
  assert (H0 : quits t0 = 0).
  { unfold Timetable_init, driver_call in E0. injection E0 as <- _. reflexivity. }
  specialize (Hbody c (Timetable_enter t0)). unfold Timetable_enter in *.
  destruct (body c t0) as [c1 [t1 r]]. simpl in Hbody.
  unfold Timetable_exit, driver_call.
  destruct (answer (driver t1) Quit); simpl; (split; [| reflexivity]);
    unfold quits in *; simpl; rewrite Hbody, H0; reflexivity.
Qed.

(** ** login *)

Lemma login_answered username password t r :
  answers (site (driver t)) (log (driver t)) (login_cmds username password)
  = [Done; Done; Done; Done; Done; Done; Done; r] ->
  login username password t =
  ({| driver := {| site := site (driver t);
                   log := (rev (login_cmds username password) ++ log (driver t))%list |};
      events := events t |},
   inl (match r with Done => true | Raised _ => false end)).
Proof.
  intros H. rewrite login_unfold.
  unfold login_cmds, login_form_cmds, login_wait in *. simpl in H.
  injection H as H1 H2 H3 H4 H5 H6 H7 H8.
  unfold after_run. cbn [run_cmds]. unfold answer. simpl.
  rewrite H1, H2, H3, H4, H5, H6, H7. unfold with_driver, answer. simpl.
  rewrite H8. reflexivity.
Qed.

(** Whatever the site answers, [login] sends the commands of [login_cmds] in
    their order, from the first one up to the one that raises. *)
Lemma login_issued username password t :
  exists n, issued t (fst (login username password t))
            = firstn (S n) (login_cmds username password).
Proof.
  rewrite login_unfold. unfold after_run.
  destruct (run_cmds_stop (login_form_cmds username password) (driver t))
    as (n & Hn & _ & Hl & Hr).
  destruct (run_cmds (login_form_cmds username password) (driver t)) as [d [e |]];
    cbn [fst snd] in *.
  - destruct Hr as (c & _ & Hpos & _). destruct n as [| n]; [lia |].
    exists n. rewrite (issued_app _ _ (rev (firstn (S n) (login_form_cmds username password))))
      by exact Hl.
    rewrite rev_involutive. unfold login_cmds. now rewrite firstn_app_left.
  - subst n. exists 7.
    rewrite (issued_app _ _ (rev (login_cmds username password))).
    + now rewrite rev_involutive.
    + simpl. rewrite Hl. reflexivity.
Qed.

(** ** load *)

Lemma load_issued_prefix t :
  exists n, issued t (fst (load t)) = firstn n load_cmds.
Proof.
  rewrite load_unfold. unfold after_run.
  destruct (run_cmds_stop load_open_cmds (driver t)) as (n1 & Hn1 & _ & Hl1 & Hr1).
  destruct (run_cmds load_open_cmds (driver t)) as [d1 [e1 |]]; cbn [fst snd] in *.
  - exists n1. rewrite (issued_app _ _ (rev (firstn n1 load_open_cmds))) by exact Hl1.
    rewrite rev_involutive. unfold load_cmds. now rewrite firstn_app_left.
  - subst n1. rewrite firstn_all in Hl1.
    destruct (run_cmds_stop load_form_cmds d1) as (n2 & Hn2 & _ & Hl2 & Hr2).
    destruct (run_cmds load_form_cmds d1) as [d2 [e2 |]]; cbn [fst snd] in *.
    + exists (length load_open_cmds + n2).
      rewrite (issued_app _ _ (rev (load_open_cmds ++ firstn n2 load_form_cmds))).
      * rewrite rev_involutive. unfold load_cmds.
        rewrite firstn_app_2. f_equal. now rewrite firstn_app_left.
      * cbn [driver with_driver].
        rewrite Hl2, Hl1, rev_app_distr, <- app_assoc. reflexivity.
    + subst n2. rewrite firstn_all in Hl2. exists (length load_cmds).
      rewrite (issued_app _ _ (rev load_cmds)).
      * rewrite rev_involutive. now rewrite firstn_all.
      * cbn [driver with_driver issue log].
        rewrite Hl2, Hl1. unfold load_cmds.
        rewrite !rev_app_distr, <- !app_assoc. reflexivity.
Qed.

Lemma load_wait_not_in_form : ~ In load_wait load_form_cmds.
Proof.
  unfold load_wait, load_form_cmds, week_cmds. simpl.
  intros H. repeat (destruct H as [H | H]; [discriminate H |]). exact H.
Qed.

Lemma week_cmds_of_prefix n :
  filter selects_week (firstn n load_cmds) = firstn (n - 4) week_cmds.
Proof.
  do 32 (destruct n as [| n]; [reflexivity |]). reflexivity.
Qed.

Lemma click_in_prefix n :
  In (Click "bGetTimetable") (firstn n load_cmds) -> 30 <= n.
Proof.
  do 30 (destruct n as [| n];
         [ simpl; intros H; repeat (destruct H as [H | H]; [discriminate H |]);
           contradiction |]).
  intros _. lia.
Qed.

(** C4. When the site turns the credentials down -- it serves the login form
    and the default URL is not reached, so that the wait raises -- [login]
    returns [False] and raises nothing.  The timetable is as usable as
    before: its events are kept and the browser is not released.  A second
    [login] starts afresh: what it sends is [login_cmds] of the new
    credentials from its first command on (the login page is loaded again,
    and each field is cleared before the keys are typed into it), and it
    returns [True] or [False] as the site takes the new credentials or not. *)
Theorem login_wrong_credentials t username password e :
  rejects t username password e ->
  snd (login username password t) = inl false
  /\ events (fst (login username password t)) = events t
  /\ quits (fst (login username password t)) = quits t
  /\ issued t (fst (login username password t)) = login_cmds username password
  /\ forall username2 password2,
       let t1 := fst (login username password t) in
       (exists n, issued t1 (fst (login username2 password2 t1))
                  = firstn (S n) (login_cmds username2 password2))
       /\ (forall e2, rejects t1 username2 password2 e2 ->
                      snd (login username2 password2 t1) = inl false)
       /\ (accepts t1 username2 password2 ->
           snd (login username2 password2 t1) = inl true).
Proof.
  intros H. pose proof (login_answered _ _ _ _ H) as E.
  split; [rewrite E; reflexivity |].
  split; [apply login_same_events |].
  split; [apply login_same_quits |].
  split.
  - rewrite (issued_app _ _ (rev (login_cmds username password))).
    + apply rev_involutive.
    + rewrite E. reflexivity.
  - intros username2 password2 t1.
    split; [apply login_issued |].
    split.
    + intros e2 H2. rewrite (login_answered _ _ _ _ H2). reflexivity.
    + intros H2. rewrite (login_answered _ _ _ _ H2). reflexivity.
Qed.

(** A wrong password, then the right one. *)
Lemma login_wrong_credentials_witness :
  let t := fresh (one_user_site "abc123" "secret" []) in
  let t1 := fst (login "abc123" "guess" t) in
  rejects t "abc123" "guess" TimeoutException
  /\ snd (login "abc123" "guess" t) = inl false
  /\ issued t t1 = login_cmds "abc123" "guess"
  /\ accepts t1 "abc123" "secret"
  /\ snd (login "abc123" "secret" t1) = inl true.
Proof.
  intros t t1.
  assert (H : rejects t "abc123" "guess" TimeoutException) by reflexivity.
  assert (H2 : accepts t1 "abc123" "secret") by reflexivity.
  destruct (login_wrong_credentials t "abc123" "guess" TimeoutException H)
    as (R & _ & _ & I & N).
  split; [exact H |]. split; [exact R |]. split; [exact I |]. split; [exact H2 |].
  exact (proj2 (proj2 (N "abc123" "secret")) H2).
Defined.

(** C5. [load] never changes the events, whether it returns or raises.  When
    the call ends on the wait for the results URL and that wait raises (the
    URL is not reached within the timeout), [load] returns [False]; and it
    returns [True] only when that wait has been answered. *)
Theorem load_timeout t :
  events (fst (load t)) = events t
  /\ (forall e, last_answer (driver (fst (load t))) = Some (load_wait, Raised e) ->
                snd (load t) = inl false)
  /\ (snd (load t) = inl true ->
      last_answer (driver (fst (load t))) = Some (load_wait, Done)).
Proof.
  split; [apply load_same_events |].
  rewrite load_unfold. unfold after_run.
  destruct (run_cmds load_open_cmds (driver t)) as [d1 [e1 |]]; cbn [fst snd].
  - split; [reflexivity | discriminate].
  - destruct (run_cmds_stop load_form_cmds d1) as (n2 & _ & _ & _ & Hr2).
    destruct (run_cmds load_form_cmds d1) as [d2 [e2 |]]; cbn [fst snd] in *.
    + split; [| discriminate].
      intros e H. destruct Hr2 as (c & Hin & _ & Hlast).
      cbn [driver with_driver] in H. rewrite Hlast in H.
      injection H as -> _. now apply load_wait_not_in_form in Hin.
    + cbn [driver with_driver]. unfold last_answer, answer. cbn [log site issue].
      destruct (respond (site d2) (log d2) load_wait) as [| e']; split;
        try reflexivity; try discriminate.
Qed.

(** On a site where the results URL is never reached, [load] goes as far as
    the wait, returns [False] and leaves the events of an earlier scrape. *)
Lemma load_timeout_witness :
  let t := fst (scrape (fresh (slow_site (results_page [algorithms_row])))) in
  last_answer (driver (fst (load t))) = Some (load_wait, Raised TimeoutException)
  /\ snd (load t) = inl false
  /\ events (fst (load t)) = [algorithms_event].
Proof.
  intros t.
  assert (H : last_answer (driver (fst (load t)))
              = Some (load_wait, Raised TimeoutException)) by reflexivity.
  split; [exact H |].
  split; [exact (proj1 (proj2 (load_timeout t)) TimeoutException H) |].
  exact (proj1 (load_timeout t)).
Defined.

(** C7. [load] selects the weeks in both ways, on the select element named
    [lbWeeks]: first the option shown as "*All Term Time", then, by value,
    the weeks 1 to 5 and 44 to 52, each value a space followed by the
    number.  The week selections of any call are these, in this order, up to
    where the call stops; a call that gets to submit the form has sent them
    all. *)
Theorem load_selects_weeks t :
  let weeks := ([1; 2; 3; 4; 5] ++ [44; 45; 46; 47; 48; 49; 50; 51; 52])%Z%list in
  let selections :=
    SelectByVisibleText "lbWeeks" "*All Term Time"
    :: map (fun i => SelectByValue "lbWeeks" (" " ++ str i)) weeks in
  (exists n, filter selects_week (issued t (fst (load t))) = firstn n selections)
  /\ (In (Click "bGetTimetable") (issued t (fst (load t))) ->
      filter selects_week (issued t (fst (load t))) = selections).
Proof.
  intros weeks selections.
  change selections with week_cmds.
  destruct (load_issued_prefix t) as [n Hn]. rewrite Hn.
  split.
  - exists (n - 4). apply week_cmds_of_prefix.
  - intros H. apply click_in_prefix in H.
    rewrite week_cmds_of_prefix. apply firstn_all2. simpl. lia.
Qed.

Lemma load_selects_weeks_witness :
  let t := fresh (steady_site []) in
  In (Click "bGetTimetable") (issued t (fst (load t)))
  /\ filter selects_week (issued t (fst (load t))) = week_cmds.
Proof.
  intros t.
  assert (H : In (Click "bGetTimetable") (issued t (fst (load t)))).
  { apply (nth_error_In _ 29). vm_compute. reflexivity. }
  split; [exact H |].
  exact (proj2 (load_selects_weeks t) H).
Defined.

(** C6. Once the session is entered (the constructor has returned), the
    browser is released exactly once when its scope is left, and releasing
    it is the last thing done: for [main], however its body ends -- the
    timetable printed, [load] failed, or a fault gone uncaught -- and for any
    body that does not release the browser itself. *)
Theorem browser_released_once s c :
  snd (Timetable_init s) = inl tt ->
  (quits (fst (snd (main s c))) = 1
   /\ hd_error (log (driver (fst (snd (main s c))))) = Some Quit)
  /\ (forall (A : Type) (body : Block A),
        (forall c' t, quits (fst (snd (body c' t))) = quits t) ->
        quits (fst (snd (with_Timetable s body c))) = 1
        /\ hd_error (log (driver (fst (snd (with_Timetable s body c))))) = Some Quit).
Proof.
  intros Hinit. split.
  - pose proof (with_Timetable_quits s main_body c Hinit main_body_same_quits) as H.
    unfold main.
    destruct (with_Timetable s main_body c) as [c1 [t [[] | e]]]; exact H.
  - intros A body Hbody. now apply with_Timetable_quits.
Qed.

(** Three runs of [main]: the timetable is printed; [load] times out; a row
    of seven cells makes [scrape] raise.  Each releases the browser once. *)
Lemma browser_released_once_witness :
  let keys := mkConsole ["abc123"; "secret"] [] in
  let good := steady_site (results_page [algorithms_row]) in
  let slow := slow_site (results_page [algorithms_row]) in
  let changed := steady_site (results_page [seven_cells_row]) in
  (snd (snd (main good keys)) = inl tt /\ quits (fst (snd (main good keys))) = 1)
  /\ (snd (snd (main slow keys)) = inl tt
      /\ In "Timeout. Failed to load timetable." (stdout (fst (main slow keys)))
      /\ quits (fst (snd (main slow keys))) = 1)
  /\ (snd (snd (main changed keys)) = inr (ValueError_not_enough 8 7)
      /\ quits (fst (snd (main changed keys))) = 1).
Proof.
  intros keys good slow changed.
  split; [split; [vm_compute; reflexivity |
                  exact (proj1 (proj1 (browser_released_once good keys eq_refl)))] |].
  split; [split; [vm_compute; reflexivity |
          split; [apply (nth_error_In _ 4); vm_compute; reflexivity |
                  exact (proj1 (proj1 (browser_released_once slow keys eq_refl)))]] |].
  split; [vm_compute; reflexivity |
          exact (proj1 (proj1 (browser_released_once changed keys eq_refl)))].
Defined.

(** * Further properties of the program *)

(** ** Printing *)

Lemma string_app_assoc (a b c : string) : (a ++ b) ++ c = a ++ (b ++ c).
Proof. induction a as [| x a IH]; simpl; [reflexivity | now rewrite IH]. Qed.

Lemma fold_left_lines (es : list Event) : forall header,
  fold_left (fun s event => s ++ String "010"%char "-- " ++ Event_str event) es header
  = header ++ join (map event_line es).
Proof.
  induction es as [| e es IH]; intros header; simpl.
  - induction header as [| x h IHh]; simpl; [reflexivity | now rewrite <- IHh].
  - rewrite IH. unfold event_line. now rewrite string_app_assoc.
Qed.

(** X1. The text of a timetable is the count of its events, the words
    " events scraped from online timetable:", and then, for each event in
    the order held, a new line that starts with "-- " and goes on with the
    sentence [Event.__str__] makes of the event. *)
Theorem Timetable_str_lines self :
  Timetable_str self
  = str (Z.of_nat (length (events self)))
    ++ " events scraped from online timetable:"
    ++ join (map (fun event => String "010"%char "-- " ++ Event_str event)
               (events self)).
Proof.
  unfold Timetable_str. rewrite fold_left_lines.
  apply string_app_assoc.
Qed.

(** ** When [scrape] returns *)

Lemma scrape_unfold_run t :
  Forall (fun r => length (tds r) = 8) (results_rows t) ->
  snd (scrape t)
  = match snd (run_cmds (scrape_cmds (results_rows t)) (driver t)) with
    | None => inl tt
    | Some e => inr e
    end
  /\ (snd (run_cmds (scrape_cmds (results_rows t)) (driver t)) = None ->
      driver (fst (scrape t))
      = fst (run_cmds (scrape_cmds (results_rows t)) (driver t))).
Proof.
  intros Hrows. rewrite scrape_unfold. unfold scrape_cmds. cbn [run_cmds].
  destruct (answer (driver t) find_rows_cmd) as [| e].
  - exact (scrape_loop_run _ Hrows (asked t)).
  - cbn [fst snd]. split; [reflexivity | discriminate].
Qed.

(** X2. [scrape] returns, rather than raises, exactly when every non-header
    row of the results page has eight cells and the driver answers every
    command [scrape] sends: the search for the rows and then, row after
    row, the search for the cells of the row and the reads of their
    texts. *)
Theorem scrape_returns_iff t :
  snd (scrape t) = inl tt
  <-> Forall (fun r => length (tds r) = 8) (results_rows t)
      /\ Forall (fun r => r = Done)
           (answers (site (driver t)) (log (driver t))
              (scrape_cmds (results_rows t))).
Proof.
  rewrite <- run_cmds_answered. split.
  - intros H.
    assert (Hrows : Forall (fun r => length (tds r) = 8) (results_rows t)).
    { assert (Hs : scrape t = (fst (scrape t), inl tt))
        by (rewrite <- H; apply surjective_pairing).
      destruct (scrape_ok_inv _ _ Hs) as (evs & Hevs & _).
      eapply unpacked_eight; eauto. }
    split; [exact Hrows |].
    destruct (scrape_unfold_run t Hrows) as [E _]. rewrite H in E.
    destruct (snd (run_cmds (scrape_cmds (results_rows t)) (driver t)));
      [discriminate | reflexivity].
  - intros [Hrows Hrun].
    destruct (scrape_unfold_run t Hrows) as [E _]. now rewrite Hrun in E.
Qed.

(** On a page of one good row: [scrape] returns when every command is
    answered, and raises when the text of a cell cannot be read. *)
Lemma scrape_returns_iff_witness :
  let good := fresh (steady_site (results_page [algorithms_row])) in
  let stale := fresh (failing_site is_get_text (WebDriverException "stale element")
                        (results_page [algorithms_row])) in
  snd (scrape good) = inl tt
  /\ snd (scrape stale) = inr (WebDriverException "stale element")
  /\ events (fst (scrape stale)) = []
  /\ ~ Forall (fun r => r = Done)
         (answers (site (driver stale)) (log (driver stale))
            (scrape_cmds (results_rows stale))).
Proof.
  intros good stale.
  split; [apply (proj2 (scrape_returns_iff good)); split;
          [repeat constructor | vm_compute; repeat constructor] |].
  assert (E : snd (scrape stale) = inr (WebDriverException "stale element"))
    by (vm_compute; reflexivity).
  split; [exact E |]. split; [vm_compute; reflexivity |].
  intros H.
  assert (R : snd (scrape stale) = inl tt).
  { apply (proj2 (scrape_returns_iff stale)). split; [repeat constructor | exact H]. }
  rewrite E in R. discriminate R.
Defined.

(** X12. When [scrape] returns it has sent, in order, the search for the
    rows and then for each non-header row the search for its [td] cells
    followed by the reads of the texts of its eight cells from left to
    right: date, activity, type, start, end, room, staff, department. *)
Theorem scrape_returns_issued t :
  snd (scrape t) = inl tt ->
  issued t (fst (scrape t)) = scrape_cmds (results_rows t).
Proof.
  intros H.
  assert (Hrows : Forall (fun r => length (tds r) = 8) (results_rows t)).
  { assert (Hs : scrape t = (fst (scrape t), inl tt))
      by (rewrite <- H; apply surjective_pairing).
    destruct (scrape_ok_inv _ _ Hs) as (evs & Hevs & _).
    eapply unpacked_eight; eauto. }
  destruct (scrape_unfold_run t Hrows) as [E D]. rewrite H in E.
  destruct (run_cmds_stop (scrape_cmds (results_rows t)) (driver t))
    as (n & _ & _ & Hl & Hr).
  destruct (snd (run_cmds (scrape_cmds (results_rows t)) (driver t)));
    [discriminate |].
  subst n. rewrite firstn_all in Hl. rewrite <- (D eq_refl) in Hl.
  rewrite (issued_app _ _ _ Hl). apply rev_involutive.
Qed.

Lemma scrape_returns_issued_witness :
  let t := fresh (steady_site (results_page [algorithms_row])) in
  snd (scrape t) = inl tt
  /\ issued t (fst (scrape t))
     = find_rows_cmd
       :: FindElementsByTagName algorithms_row "td"
       :: map GetText (tds algorithms_row).
Proof.
  intros t.
  assert (H : snd (scrape t) = inl tt) by (vm_compute; reflexivity).
  split; [exact H |].
  rewrite (scrape_returns_issued t H). vm_compute. reflexivity.
Defined.

(** ** How [login] and [load] end *)

(** [login] ends in one of two ways: a command of the form raises and the
    fault goes on, or the wait is reached and its answer makes the result. *)
Lemma login_cases username password t :
  (exists c e n,
      In c (login_form_cmds username password)
      /\ snd (login username password t) = inr e
      /\ last_answer (driver (fst (login username password t))) = Some (c, Raised e)
      /\ log (driver (fst (login username password t)))
         = (rev (firstn n (login_form_cmds username password)) ++ log (driver t))%list)
  \/ (exists r,
        snd (login username password t)
        = inl (match r with Done => true | Raised _ => false end)
        /\ last_answer (driver (fst (login username password t))) = Some (login_wait, r)
        /\ log (driver (fst (login username password t)))
           = (rev (login_cmds username password) ++ log (driver t))%list).
Proof.
  rewrite login_unfold. unfold after_run.
  destruct (run_cmds_stop (login_form_cmds username password) (driver t))
    as (n & Hn & Hs & Hl & Hr).
  destruct (run_cmds (login_form_cmds username password) (driver t)) as [d [e |]];
    cbn [fst snd] in *.
  - left. destruct Hr as (c & Hin & _ & Hlast). exists c, e, n. auto.
  - right. subst n. rewrite firstn_all in Hl.
    exists (answer d login_wait). split; [reflexivity |].
    split; [reflexivity |].
    cbn [driver with_driver issue log]. rewrite Hl. unfold login_cmds.
    rewrite rev_app_distr. reflexivity.
Qed.

(** [load] ends in one of three ways: the filter form does not open and the
    result is [False]; a command on the form raises and the fault goes on;
    or the last wait is reached and its answer makes the result. *)
Lemma load_cases t :
  (exists c e n,
      In c load_open_cmds
      /\ snd (load t) = inl false
      /\ last_answer (driver (fst (load t))) = Some (c, Raised e)
      /\ log (driver (fst (load t)))
         = (rev (firstn n load_open_cmds) ++ log (driver t))%list)
  \/ (exists c e,
        In c load_form_cmds
        /\ snd (load t) = inr e
        /\ last_answer (driver (fst (load t))) = Some (c, Raised e))
  \/ (exists r,
        snd (load t) = inl (match r with Done => true | Raised _ => false end)
        /\ last_answer (driver (fst (load t))) = Some (load_wait, r)
        /\ log (driver (fst (load t))) = (rev load_cmds ++ log (driver t))%list).
Proof.
  rewrite load_unfold. unfold after_run.
  destruct (run_cmds_stop load_open_cmds (driver t)) as (n1 & Hn1 & _ & Hl1 & Hr1).
  destruct (run_cmds load_open_cmds (driver t)) as [d1 [e1 |]]; cbn [fst snd] in *.
  - left. destruct Hr1 as (c & Hin & _ & Hlast). exists c, e1, n1. auto.
  - subst n1. rewrite firstn_all in Hl1.
    destruct (run_cmds_stop load_form_cmds d1) as (n2 & Hn2 & _ & Hl2 & Hr2).
    destruct (run_cmds load_form_cmds d1) as [d2 [e2 |]]; cbn [fst snd] in *.
    + right. left. destruct Hr2 as (c & Hin & _ & Hlast). exists c, e2. auto.
    + right. right. subst n2. rewrite firstn_all in Hl2.
      exists (answer d2 load_wait). split; [reflexivity |].
      split; [reflexivity |].
      cbn [driver with_driver issue log]. rewrite Hl2, Hl1. unfold load_cmds.
      rewrite !rev_app_distr, <- !app_assoc. reflexivity.
Qed.

Lemma login_wait_not_in_form username password :
  ~ In login_wait (login_form_cmds username password).
Proof.
  unfold login_wait, login_form_cmds. simpl.
  intros H. repeat (destruct H as [H | H]; [discriminate H |]). exact H.
Qed.

Lemma load_open_not_in_form c : In c load_open_cmds -> ~ In c load_form_cmds.
Proof.
  unfold load_open_cmds, load_form_cmds, week_cmds. simpl.
  intros [<- | [<- | []]] H;
    repeat (destruct H as [H | H]; [discriminate H |]); exact H.
Qed.

Lemma load_wait_not_in_open : ~ In load_wait load_open_cmds.
Proof.
  unfold load_wait, load_open_cmds. simpl.
  intros H. repeat (destruct H as [H | H]; [discriminate H |]). exact H.
Qed.

(** X3. When [login] returns a boolean it has sent the whole of
    [login_cmds], in order: the login page is loaded, each field is found,
    cleared and typed into -- the password followed by RETURN -- and the
    default URL is waited for.  The boolean is [True] exactly when that
    wait has been answered. *)
Theorem login_returns username password t b :
  snd (login username password t) = inl b ->
  issued t (fst (login username password t)) = login_cmds username password
  /\ (b = true
      <-> last_answer (driver (fst (login username password t)))
          = Some (login_wait, Done)).
Proof.
  intros H.
  destruct (login_cases username password t)
    as [(c & e & n & _ & Hr & _) | (r & Hr & Hlast & Hlog)]; [congruence |].
  split.
  - rewrite (issued_app _ _ _ Hlog). apply rev_involutive.
  - rewrite Hlast. rewrite Hr in H. injection H as <-.
    destruct r; split; congruence.
Qed.

Lemma login_returns_witness :
  let t := fresh (one_user_site "abc123" "secret" []) in
  snd (login "abc123" "secret" t) = inl true
  /\ issued t (fst (login "abc123" "secret" t)) = login_cmds "abc123" "secret".
Proof.
  intros t.
  assert (H : snd (login "abc123" "secret" t) = inl true) by reflexivity.
  split; [exact H |].
  exact (proj1 (login_returns "abc123" "secret" t true H)).
Defined.

(** X4. A fault that [login] raises is the fault of one of the commands on
    the login form (loading the page, finding, clearing or typing into a
    field), and [login] stops at that command.  Nothing raised by the wait
    for the default URL gets out of [login], whatever the exception. *)
Theorem login_raises username password t e :
  snd (login username password t) = inr e ->
  exists c n,
    In c (login_form_cmds username password)
    /\ c <> login_wait
    /\ last_answer (driver (fst (login username password t))) = Some (c, Raised e)
    /\ issued t (fst (login username password t))
       = firstn n (login_form_cmds username password).
Proof.
  intros H.
  destruct (login_cases username password t)
    as [(c & e' & n & Hin & Hr & Hlast & Hlog) | (r & Hr & _)]; [| congruence].
  rewrite Hr in H. injection H as ->.
  exists c, n. repeat split; auto.
  - intros ->. now apply login_wait_not_in_form in Hin.
  - rewrite (issued_app _ _ _ Hlog). apply rev_involutive.
Qed.

(** A login page without the password field: [login] raises
    [NoSuchElementException] when it looks for the field, after it has typed
    the username. *)
Lemma login_raises_witness :
  let t := fresh (failing_site (is_find "tPassword") NoSuchElementException []) in
  snd (login "abc123" "secret" t) = inr NoSuchElementException
  /\ exists c n,
       In c (login_form_cmds "abc123" "secret")
       /\ c <> login_wait
       /\ last_answer (driver (fst (login "abc123" "secret" t)))
          = Some (c, Raised NoSuchElementException)
       /\ issued t (fst (login "abc123" "secret" t))
          = firstn n (login_form_cmds "abc123" "secret").
Proof.
  intros t.
  assert (H : snd (login "abc123" "secret" t) = inr NoSuchElementException)
    by reflexivity.
  split; [exact H |].
  exact (login_raises "abc123" "secret" t NoSuchElementException H).
Defined.

(** X5. When the call of [load] ends on a fault of the script that opens the
    filter form, or of the wait for the title of the form, [load] returns
    [False], whatever the exception, and has sent nothing but the commands
    that open the form: no field of the form is touched. *)
Theorem load_form_not_opened t c e :
  In c load_open_cmds ->
  last_answer (driver (fst (load t))) = Some (c, Raised e) ->
  snd (load t) = inl false
  /\ exists n, issued t (fst (load t)) = firstn n load_open_cmds.
Proof.
  intros Hin Hlast.
  destruct (load_cases t)
    as [(c1 & e1 & n & _ & Hr & _ & Hlog)
       | [(c2 & e2 & Hin2 & _ & Hlast2) | (r & _ & Hlast3 & _)]].
  - split; [exact Hr |]. exists n.
    rewrite (issued_app _ _ _ Hlog). apply rev_involutive.
  - rewrite Hlast2 in Hlast. injection Hlast as -> _.
    now apply load_open_not_in_form in Hin.
  - rewrite Hlast3 in Hlast. injection Hlast as <- _.
    now apply load_wait_not_in_open in Hin.
Qed.

(** The title of the filter form never shows: [load] returns [False] after
    the script and the wait. *)
Lemma load_form_not_opened_witness :
  let t := fresh (failing_site is_wait_for_text TimeoutException []) in
  snd (load t) = inl false
  /\ issued t (fst (load t)) = load_open_cmds
  /\ exists n, issued t (fst (load t)) = firstn n load_open_cmds.
Proof.
  intros t.
  assert (Hin : In (WaitUntil timeout
                      (text_to_be_present_in_element (By_ID, "tFilterTitle")
                         "My Timetable")) load_open_cmds)
    by (right; left; reflexivity).
  assert (Hlast : last_answer (driver (fst (load t)))
                  = Some (WaitUntil timeout
                            (text_to_be_present_in_element (By_ID, "tFilterTitle")
                               "My Timetable"), Raised TimeoutException))
    by reflexivity.
  destruct (load_form_not_opened t _ _ Hin Hlast) as [R N].
  split; [exact R |]. split; [vm_compute; reflexivity | exact N].
Defined.

(** X6. When [load] returns [True] it has sent the whole of [load_cmds], in
    order: the script and the wait that open the filter form; the weeks; the
    days "All Week"; the period "All Day (08:00 - 22:00)"; the type "List
    Timetable (with calendar dates)", each chosen by its visible text on the
    select element found by name; the click on the button [bGetTimetable];
    and the wait for the results URL. *)
Theorem load_returns_true t :
  snd (load t) = inl true ->
  issued t (fst (load t)) = load_cmds.
Proof.
  intros H.
  destruct (load_cases t)
    as [(c1 & e1 & n & _ & Hr & _) | [(c2 & e2 & _ & Hr & _) | (r & _ & _ & Hlog)]];
    try congruence.
  rewrite (issued_app _ _ _ Hlog). apply rev_involutive.
Qed.

Lemma load_returns_true_witness :
  let t := fresh (steady_site []) in
  snd (load t) = inl true
  /\ issued t (fst (load t)) = load_cmds.
Proof.
  intros t.
  assert (H : snd (load t) = inl true) by (vm_compute; reflexivity).
  split; [exact H |].
  exact (load_returns_true t H).
Defined.

(** X7. A fault that [load] raises is the fault of a command on the filter
    form (finding a select element or the button, selecting an option,
    clicking), and [load] stops at that command.  A fault of the script or
    of either wait never gets out of [load]. *)
Theorem load_raises t e :
  snd (load t) = inr e ->
  exists c,
    In c load_form_cmds
    /\ last_answer (driver (fst (load t))) = Some (c, Raised e).
Proof.
  intros H.
  destruct (load_cases t)
    as [(c1 & e1 & n & _ & Hr & _)
       | [(c2 & e2 & Hin & Hr & Hlast) | (r & Hr & _)]]; try congruence.
  rewrite Hr in H. injection H as ->. exists c2. auto.
Qed.

(** A filter form without the select element [dlType]. *)
Lemma load_raises_witness :
  let t := fresh (failing_site (is_find "dlType") NoSuchElementException []) in
  snd (load t) = inr NoSuchElementException
  /\ last_answer (driver (fst (load t)))
     = Some (FindElementByName "dlType", Raised NoSuchElementException)
  /\ exists c,
       In c load_form_cmds
       /\ last_answer (driver (fst (load t)))
          = Some (c, Raised NoSuchElementException).
Proof.
  intros t.
  assert (H : snd (load t) = inr NoSuchElementException) by (vm_compute; reflexivity).
  split; [exact H |]. split; [vm_compute; reflexivity |].
  exact (load_raises t NoSuchElementException H).
Defined.

(** ** The order of the stages in [main] *)

Lemma later_refl t : later t t.
Proof. split; [reflexivity | exists []; reflexivity]. Qed.

Lemma later_trans a b c : later a b -> later b c -> later a c.
Proof.
  intros [S1 [l1 L1]] [S2 [l2 L2]]. split; [congruence |].
  exists (l2 ++ l1)%list. rewrite L2, L1. now rewrite app_assoc.
Qed.

Lemma unsent_refl p t : unsent p t t.
Proof. intros H. exact H. Qed.

Lemma unsent_trans p a b c : unsent p a b -> unsent p b c -> unsent p a c.
Proof. unfold unsent. auto. Qed.

Lemma driver_call_later c : keeps later (driver_call c).
Proof. intros t. split; [reflexivity | exists [c]; reflexivity]. Qed.

Lemma events_append_later e : keeps later (events_append e).
Proof. intros t. split; [reflexivity | exists []; reflexivity]. Qed.

Lemma driver_call_unsent p c : p c = false -> keeps (unsent p) (driver_call c).
Proof. intros Hc t. unfold unsent. simpl. now rewrite Hc. Qed.

Lemma events_append_unsent p e : keeps (unsent p) (events_append e).
Proof. intros t H. exact H. Qed.

Ltac later_tac :=
  keeps_tac later_refl later_trans ltac:(apply driver_call_later).

Ltac unsent_tac p :=
  keeps_tac (unsent_refl p) (unsent_trans p)
    ltac:(apply driver_call_unsent; reflexivity).

Lemma login_later username password : keeps later (login username password).
Proof. unfold login, find_element_by_name. later_tac. Qed.

Lemma load_later : keeps later load.
Proof. unfold load, find_element_by_name, Select. later_tac. Qed.

Lemma scrape_later : keeps later scrape.
Proof.
  apply (keeps_scrape _ later_refl later_trans);
    [intros c _; apply driver_call_later | apply events_append_later].
Qed.

Lemma login_unsent_script username password :
  keeps (unsent is_script) (login username password).
Proof. unfold login, find_element_by_name. unsent_tac is_script. Qed.

Lemma login_unsent_find_rows username password :
  keeps (unsent is_find_rows) (login username password).
Proof. unfold login, find_element_by_name. unsent_tac is_find_rows. Qed.

Lemma load_unsent_find_rows : keeps (unsent is_find_rows) load.
Proof. unfold load, find_element_by_name, Select. unsent_tac is_find_rows. Qed.

(** What every [login] keeps, the loop of [main] keeps. *)
Lemma login_loop_keeps (R : Timetable -> Timetable -> Prop) :
  (forall t, R t t) -> (forall a b c, R a b -> R b c -> R a c) ->
  (forall username password, keeps R (login username password)) ->
  forall lines out t, R t (fst (snd (login_loop lines out t))).
Proof.
  intros Rrefl Rtrans Hlogin lines.
  induction lines as [lines IH] using (well_founded_induction
    (Wf_nat.well_founded_ltof _ (@length string))).
  intros out t.
  destruct lines as [| username [| password rest]]; try apply Rrefl.
  simpl. pose proof (Hlogin username password t) as H.
  destruct (login username password t) as [t' [[|] | e]]; simpl in *; auto.
  eapply Rtrans; [exact H |]. apply IH. unfold ltof. simpl. lia.
Qed.

(** The loop of [main] is left without a fault only after a [login] that
    returned [True]: the wait for the default URL is the last command and it
    has been answered. *)
Lemma login_loop_logged_in lines : forall out t,
  snd (snd (login_loop lines out t)) = inl tt ->
  last_answer (driver (fst (snd (login_loop lines out t)))) = Some (login_wait, Done).
Proof.
  induction lines as [lines IH] using (well_founded_induction
    (Wf_nat.well_founded_ltof _ (@length string))).
  intros out t.
  destruct lines as [| username [| password rest]]; try discriminate.
  simpl.
  destruct (login_cases username password t)
    as [(c & e & n & _ & Hr & _) | (r & Hr & Hlast & _)];
    destruct (login username password t) as [t' res]; simpl in *; subst res.
  - discriminate.
  - destruct r; simpl.
    + intros _. exact Hlast.
    + apply IH. unfold ltof. simpl. lia.
Qed.

Lemma last_answered d c r : last_answer d = Some (c, r) -> answered d c r.
Proof.
  unfold last_answer, answered. destruct (log d) as [| c' l]; [discriminate |].
  intros H. injection H as -> <-. exists [], l. auto.
Qed.

Lemma answered_later t t' c r :
  later t t' -> answered (driver t) c r -> answered (driver t') c r.
Proof.
  intros [Hs [l Hl]] (l1 & l2 & H1 & H2).
  exists (l ++ l1)%list, l2. rewrite Hl, H1, Hs. now rewrite app_assoc.
Qed.

(** The body of [main]: [load] is not begun, and the body does not end
    without a fault, unless a [login] has returned [True]. *)
Lemma main_body_logged_in c t :
  let t' := fst (snd (main_body c t)) in
  (existsb is_script (log (driver t')) = true ->
   existsb is_script (log (driver t)) = true \/ answered (driver t') login_wait Done)
  /\ (snd (snd (main_body c t)) = inl tt -> answered (driver t') login_wait Done).
Proof.
  unfold main_body.
  pose proof (login_loop_keeps _ (unsent_refl is_script) (unsent_trans is_script)
                login_unsent_script (stdin c) (stdout c) t) as U.
  pose proof (login_loop_logged_in (stdin c) (stdout c) t) as L.
  destruct (login_loop (stdin c) (stdout c) t) as [c1 [t1 [[] | e]]]; simpl in *.
  - specialize (L eq_refl). apply last_answered in L.
    assert (A : forall t2, later t1 t2 -> answered (driver t2) login_wait Done)
      by (intros t2 H; eapply answered_later; eauto).
    pose proof (load_later t1) as H2.
    destruct (load t1) as [t2 [[|] | e]]; simpl in *; auto.
    pose proof (scrape_later t2) as H3.
    assert (H13 : later t1 (fst (scrape t2))) by (eapply later_trans; eauto).
    destruct (scrape t2) as [t3 [[] | e]]; simpl in *; auto.
  - split; [auto | discriminate].
Qed.

(** The body of [main]: the rows are not searched for, and no event is
    held that was not held before, unless [load] has returned [True]. *)
Lemma main_body_loaded c t :
  let t' := fst (snd (main_body c t)) in
  (existsb is_find_rows (log (driver t')) = true ->
   existsb is_find_rows (log (driver t)) = true \/ answered (driver t') load_wait Done)
  /\ (events t' = events t \/ answered (driver t') load_wait Done).
Proof.
  unfold main_body.
  pose proof (login_loop_keeps _ (unsent_refl is_find_rows)
                (unsent_trans is_find_rows) login_unsent_find_rows
                (stdin c) (stdout c) t) as U1.
  pose proof (login_loop_keeps _ same_events_refl same_events_trans
                login_same_events (stdin c) (stdout c) t) as E1.
  destruct (login_loop (stdin c) (stdout c) t) as [c1 [t1 [[] | e]]]; simpl in *;
    [| auto].
  pose proof (load_unsent_find_rows t1) as U2.
  pose proof (load_same_events t1) as E2.
  unfold same_events in *.
  destruct (load_cases t1)
    as [(c' & e' & n & _ & Hr & _)
       | [(c' & e' & _ & Hr & _) | (r & Hr & Hlast & _)]];
    destruct (load t1) as [t2 res]; simpl in *; subst res.
  - simpl. split; [intros H; left; apply U1, U2, H | left; congruence].
  - simpl. split; [intros H; left; apply U1, U2, H | left; congruence].
  - destruct r; simpl;
      [| split; [intros H; left; apply U1, U2, H | left; congruence]].
    apply last_answered in Hlast.
    pose proof (scrape_later t2) as H3.
    assert (A : answered (driver (fst (scrape t2))) load_wait Done)
      by (eapply answered_later; eauto).
    destruct (scrape t2) as [t3 [[] | e]]; simpl in *; auto.
Qed.

(** What the [with] statement of [main] adds around the body. *)
Lemma main_final s c :
  (snd (Timetable_init s) = inl tt
   /\ later (fst (snd (main_body c (fst (Timetable_init s))))) (fst (snd (main s c)))
   /\ log (driver (fst (snd (main s c))))
      = Quit :: log (driver (fst (snd (main_body c (fst (Timetable_init s))))))
   /\ events (fst (snd (main s c)))
      = events (fst (snd (main_body c (fst (Timetable_init s)))))
   /\ (snd (snd (main s c)) = inl tt ->
       snd (snd (main_body c (fst (Timetable_init s)))) = inl tt))
  \/ (exists e, snd (Timetable_init s) = inr e
                /\ main s c = (c, (fst (Timetable_init s), inr e))).
Proof.
  unfold main, with_Timetable, Timetable_enter, Timetable_exit.
  destruct (Timetable_init s) as [t0 [[] | e0]]; cbn [fst snd].
  - left. split; [reflexivity |].
    destruct (main_body c t0) as [c1 [t1 r]]. cbn [fst snd].
    pose proof (driver_call_later Quit t1) as HL.
    assert (HQ : log (driver (fst (driver_call Quit t1))) = Quit :: log (driver t1))
      by reflexivity.
    assert (HE : events (fst (driver_call Quit t1)) = events t1) by reflexivity.
    destruct (driver_call Quit t1) as [t2 [[] | e2]]; cbn [fst snd] in *.
    + destruct r as [[] | e]; cbn [fst snd];
        (split; [exact HL |]); (split; [exact HQ |]); (split; [exact HE |]);
        auto.
    + split; [exact HL |]. split; [exact HQ |]. split; [exact HE |]. discriminate.
  - right. exists e0. auto.
Qed.

Lemma fresh_log s : log (driver (fst (Timetable_init s))) = [Chrome ["--incognito"]].
Proof. reflexivity. Qed.

(** X8. In [main], [load] is begun only after a [login] that returned
    [True]: when the script that opens the filter form is in the log of the
    run, so is a wait for the default URL that the site has answered.  And
    [main] does not end without a fault unless there has been such a
    wait. *)
Theorem main_loads_after_login s c :
  let t := fst (snd (main s c)) in
  (existsb is_script (log (driver t)) = true -> answered (driver t) login_wait Done)
  /\ (snd (snd (main s c)) = inl tt -> answered (driver t) login_wait Done).
Proof.
  intros t. subst t.
  destruct (main_final s c) as [(_ & HL & HQ & _ & HR) | (e & _ & E)].
  - destruct (main_body_logged_in c (fst (Timetable_init s))) as [B1 B2].
    split.
    + rewrite HQ. simpl. intros H. destruct (B1 H) as [H0 | A].
      * rewrite fresh_log in H0. discriminate.
      * eapply answered_later; eauto.
    + intros H. eapply answered_later; [exact HL |]. auto.
  - rewrite E. cbn [fst snd]. rewrite fresh_log. split; discriminate.
Qed.

(** X9. In [main], [scrape] is begun only after a [load] that returned
    [True]: when the search for the rows is in the log of the run, or when
    the timetable holds an event at the end, the log has a wait for the
    results URL that the site has answered. *)
Theorem main_scrapes_after_load s c :
  let t := fst (snd (main s c)) in
  (existsb is_find_rows (log (driver t)) = true -> answered (driver t) load_wait Done)
  /\ (events t <> [] -> answered (driver t) load_wait Done).
Proof.
  intros t. subst t.
  destruct (main_final s c) as [(_ & HL & HQ & HE & _) | (e & _ & E)].
  - destruct (main_body_loaded c (fst (Timetable_init s))) as [B1 B2].
    split.
    + rewrite HQ. simpl. intros H. destruct (B1 H) as [H0 | A].
      * rewrite fresh_log in H0. discriminate.
      * eapply answered_later; eauto.
    + rewrite HE. intros H. destruct B2 as [H0 | A].
      * elim H. rewrite H0. reflexivity.
      * eapply answered_later; eauto.
  - rewrite E. cbn [fst snd]. rewrite fresh_log.
    split; [discriminate | intros H; now elim H].
Qed.

Lemma main_loads_after_login_witness :
  let t := fst (snd (main (steady_site (results_page [algorithms_row]))
                       (mkConsole ["abc123"; "secret"] []))) in
  existsb is_script (log (driver t)) = true
  /\ answered (driver t) login_wait Done.
Proof.
  intros t.
  assert (H : existsb is_script (log (driver t)) = true) by (vm_compute; reflexivity).
  split; [exact H |].
  exact (proj1 (main_loads_after_login _ _) H).
Defined.

Lemma main_scrapes_after_load_witness :
  let t := fst (snd (main (steady_site (results_page [algorithms_row]))
                       (mkConsole ["abc123"; "secret"] []))) in
  events t = [algorithms_event]
  /\ answered (driver t) load_wait Done.
Proof.
  intros t.
  assert (H : events t = [algorithms_event]) by (vm_compute; reflexivity).
  split; [exact H |].
  apply (proj2 (main_scrapes_after_load _ _)).
  fold t. rewrite H. discriminate.
Defined.

(** ** What [main] writes *)

Lemma last_app_nonempty {A : Type} (l w : list A) d :
  w <> [] -> last (l ++ w) d = last w d.
Proof.
  intros Hw. induction l as [| a l IH]; [reflexivity |].
  simpl. destruct (l ++ w)%list eqn:E; [| exact IH].
  apply app_eq_nil in E. destruct E as [_ E]. contradiction.
Qed.

(** The loop of [main] writes something, and what it writes last is not
    "Finished.". *)
Lemma login_loop_written lines : forall out t,
  exists w,
    stdout (fst (login_loop lines out t)) = (out ++ w)%list
    /\ w <> [] /\ last w "" <> "Finished.".
Proof.
  induction lines as [lines IH] using (well_founded_induction
    (Wf_nat.well_founded_ltof _ (@length string))).
  intros out t.
  destruct lines as [| username [| password rest]].
  - eexists. simpl. split; [reflexivity |]. split; discriminate.
  - eexists. simpl. split; [reflexivity |]. split; discriminate.
  - simpl. destruct (login username password t) as [t' [[|] | e]]; simpl.
    + eexists. rewrite <- app_assoc. split; [reflexivity |]. split; discriminate.
    + match goal with
      | |- context [login_loop rest ?o t'] =>
          destruct (IH rest ltac:(unfold ltof; simpl; lia) o t')
            as (w & Hw & Hne & Hlast)
      end.
      exists (["Enter UoB username (e.g. abc123): "; "Enter UoB password (hidden): ";
               "Incorrect username or password. Try again."] ++ w)%list.
      rewrite Hw, <- !app_assoc. split; [reflexivity |].
      split; [discriminate |]. now rewrite last_app_nonempty.
    + eexists. split; [reflexivity |]. split; discriminate.
Qed.

(** So does the body of [main]. *)
Lemma main_body_written c t :
  exists w,
    stdout (fst (main_body c t)) = (stdout c ++ w)%list
    /\ w <> [] /\ last w "" <> "Finished.".
Proof.
  unfold main_body.
  destruct (login_loop_written (stdin c) (stdout c) t) as (w & Hw & Hne & Hlast).
  destruct (login_loop (stdin c) (stdout c) t) as [c1 [t1 [[] | e]]]; simpl in *.
  - destruct (load t1) as [t2 [[|] | e]]; simpl.
    + destruct (scrape t2) as [t3 [[] | e]]; simpl; rewrite Hw, <- !app_assoc.
      * exists (w ++ ["Loading timetable..."; "Scraping timetable...";
                      Timetable_str t3; "Logging out..."])%list.
        split; [reflexivity |].
        split; [destruct w; discriminate |].
        rewrite last_app_nonempty by discriminate. discriminate.
      * exists (w ++ ["Loading timetable..."; "Scraping timetable..."])%list.
        split; [reflexivity |].
        split; [destruct w; discriminate |].
        rewrite last_app_nonempty by discriminate. discriminate.
    + rewrite Hw, <- !app_assoc.
      exists (w ++ ["Loading timetable..."; "Timeout. Failed to load timetable.";
                    "Logging out..."])%list.
      split; [reflexivity |].
      split; [destruct w; discriminate |].
      rewrite last_app_nonempty by discriminate. discriminate.
    + rewrite Hw, <- !app_assoc.
      exists (w ++ ["Loading timetable..."])%list.
      split; [reflexivity |].
      split; [destruct w; discriminate |].
      rewrite last_app_nonempty by discriminate. discriminate.
  - exists w. auto.
Qed.

(** X10. [main] only adds to what is written, and the last thing it writes
    is "Finished." exactly when it ends without a fault: not when the
    browser cannot be started (then nothing is written), not when the input
    runs out, not when a fault gets out of [login], [load] or [scrape], and
    not when the browser raises on being released. *)
Theorem main_finished s c :
  exists w,
    stdout (fst (main s c)) = (stdout c ++ w)%list
    /\ (snd (snd (main s c)) = inl tt <-> last w "" = "Finished.").
Proof.
  unfold main, with_Timetable, Timetable_enter.
  destruct (Timetable_init s) as [t0 [[] | e0]]; cbn [fst snd].
  - destruct (main_body_written c t0) as (w & Hw & Hne & Hlast).
    destruct (main_body c t0) as [c1 [t1 r]]. cbn [fst snd] in *.
    destruct (Timetable_exit t1) as [t2 [[] | e2]]; cbn [fst snd].
    + destruct r as [[] | e]; cbn [fst snd].
      * exists (w ++ ["Finished."])%list. simpl. rewrite Hw, <- app_assoc.
        split; [reflexivity |].
        rewrite last_app_nonempty by discriminate. simpl. tauto.
      * exists w. split; [exact Hw |]. split; [discriminate | contradiction].
    + exists w. split; [exact Hw |]. split; [discriminate | contradiction].
  - exists []. rewrite app_nil_r. split; [reflexivity |]. simpl.
    split; discriminate.
Qed.

(** ** What the operations never do *)

Lemma run_op_same_quits o t : same_quits t (run_op o t).
Proof.
  destruct o as [username password | | |]; simpl.
  - apply login_same_quits.
  - apply load_same_quits.
  - apply scrape_same_quits.
  - apply same_quits_refl.
Qed.

(** X11. [login], [load], [scrape] and printing never release the browser,
    in whatever order they run and whether they return or raise: only
    [__exit__] quits the driver. *)
Theorem operations_never_quit os t :
  quits (run_ops os t) = quits t
  /\ quits (fst (Timetable_exit (run_ops os t))) = S (quits t).
Proof.
  assert (H : quits (run_ops os t) = quits t).
  { revert t. induction os as [| o os IH]; intros t; simpl; [reflexivity |].
    rewrite IH. apply run_op_same_quits. }
  split; [exact H |].
  rewrite <- H. reflexivity.
Qed.
